(** * Instrumentation registry, ESM loader hooks and context-manager factory

    A shallow embedding of three pieces of the agent:
    - the registration table [pkgs] with [registerInstrumentation] and
      [hasValidRegisterOptions];
    - [createContextManager];
    - the ESM loader hooks [resolve], [load] and [wrapEsmSource] together
      with the module state they share ([registeredSpecifiers],
      [preloadPort]).

    JavaScript values are modelled by the types the code expects of them:
    an absent property is [None], a function is known by its identity, a
    promise by the outcome it settles to. *)

From stdpp Require Import gmap strings list.

Local Open Scope string_scope.
Local Open Scope list_scope.
Local Open Scope nat_scope.

(** ** Outcomes of a call

    A call either returns a value or raises (an async function: fulfils or
    rejects). *)

Inductive js_error :=
  | TypeError (message : string)
  | ChainError (tag : string).

Inductive outcome (A : Type) :=
  | Returned (a : A)
  | Threw (e : js_error).
Arguments Returned {A} a.
Arguments Threw {A} e.

#[global] Instance js_error_eq_dec : EqDecision js_error.
Proof. solve_decision. Defined.

(** * The registration table *)

Module Registry.

(** A hook is a function; only its identity matters here. *)
Definition hook := nat.

(** The options object handed to [registerInstrumentation]. *)
Record opts := Opts {
  moduleName : option string;
  onRequire : option hook;
  onResolved : option hook;
  specifier : option string
}.

#[global] Instance opts_eq_dec : EqDecision opts.
Proof. solve_decision. Defined.

(** [!!s] for a string-or-undefined value: the empty string is falsy. *)
Definition truthy_string (s : option string) : bool :=
  match s with
  | Some (String _ _) => true
  | _ => false
  end.

(** [!!f] for a function-or-undefined value. *)
Definition truthy_hook (h : option hook) : bool :=
  match h with
  | Some _ => true
  | None => false
  end.

(** The key a value is turned into when it indexes an object. *)
Definition property_key (s : option string) : string :=
  match s with
  | Some k => k
  | None => "undefined"
  end.

(** An object used as a table: its prototype and its own properties, each
    own property holding an array of registrations. *)
Inductive prototype := NullPrototype | ObjectPrototype.

Record object := Object {
  proto : prototype;
  own : gmap string (list opts)
}.

(** What a property read yields: nothing, a member inherited from
    [Object.prototype], or an array stored by [registerInstrumentation]. *)
Inductive value :=
  | Undefined
  | Inherited (name : string)
  | Array (entries : list opts).

Definition Object_prototype_properties : list string :=
  [ "constructor"; "hasOwnProperty"; "isPrototypeOf"; "propertyIsEnumerable";
    "toLocaleString"; "toString"; "valueOf"; "__proto__";
    "__defineGetter__"; "__defineSetter__"; "__lookupGetter__";
    "__lookupSetter__" ].

(** [o[k]]: own properties first, then the prototype chain. *)
Definition get_property (o : object) (k : string) : value :=
  match own o !! k with
  | Some l => Array l
  | None =>
      match proto o with
      | NullPrototype => Undefined
      | ObjectPrototype =>
          if bool_decide (k ∈ Object_prototype_properties)
          then Inherited k else Undefined
      end
  end.

(** [o[k] = l] *)
Definition set_property (o : object) (k : string) (l : list opts) : object :=
  {| proto := proto o; own := <[k := l]> (own o) |}.

Definition truthy (v : value) : bool :=
  match v with
  | Undefined => false
  | Inherited _ | Array _ => true
  end.

(** [Object.create(null)] *)
Definition Object_create_null : object :=
  {| proto := NullPrototype; own := ∅ |}.

(** [const pkgs = Object.create(null)] *)
Definition pkgs : object := Object_create_null.

(** The registrations a property read yields, as a sequence. *)
Definition descriptors (v : value) : list opts :=
  match v with
  | Array l => l
  | _ => []
  end.

Definition hasValidRegisterOptions (o : option opts) : bool :=
  match o with
  | None => false
  | Some opts =>
      if negb (truthy_string (moduleName opts)) then false
      else if negb (truthy_hook (onRequire opts)) && negb (truthy_hook (onResolved opts))
      then false
      else true
  end.

(** [registerInstrumentation(opts)] on the table [pkgs]: the outcome of the
    call and the table afterwards. [{ ...opts }] is a copy of [opts] with
    the same fields. *)
Definition registerInstrumentation (o : option opts) (pkgs : object)
  : outcome unit * object :=
  if negb (hasValidRegisterOptions o) then (Returned tt, pkgs)
  else
    match o with
    | None => (Returned tt, pkgs)
    | Some opts =>
        let key := property_key (moduleName opts) in
        let registeredInstrumentation := get_property pkgs key in
        let pkgs1 :=
          if negb (truthy registeredInstrumentation)
          then set_property pkgs key []
          else pkgs in
        match get_property pkgs1 key with
        | Array l => (Returned tt, set_property pkgs1 key (l ++ [opts]))
        | _ => (Threw (TypeError "pkgs[opts.moduleName].push is not a function"), pkgs1)
        end
    end.

(** A run of registration calls, one after the other. *)
Definition registerAll (calls : list (option opts)) (pkgs : object) : object :=
  foldl (fun p o => snd (registerInstrumentation o p)) pkgs calls.

End Registry.

(** * The context-manager factory *)

Module ContextManager.

(** The two classes the factory instantiates. *)
Inductive contextManager :=
  | AsyncLocalContextManager
  | LegacyContextManager.

#[global] Instance contextManager_eq_dec : EqDecision contextManager.
Proof. solve_decision. Defined.

(** [config.feature_flag]: the flag the factory reads, next to the other
    flags of the agent. *)
Record feature_flags := FeatureFlags {
  new_async_context : bool;
  other_flags : gmap string bool
}.

Record config := Config {
  app_name : string;
  feature_flag : feature_flags
}.

Definition createContextManager (config : config) : contextManager :=
  if new_async_context (feature_flag config)
  then AsyncLocalContextManager
  else LegacyContextManager.

End ContextManager.

(** * The ESM loader hooks *)

Module EsmLoader.

(** ** The process the loader runs in *)

(** A version as [semver] parses it: the three numbers and the
    identifiers of the pre-release tag, none for a release
    ([v16.12.0-rc.1] has [rc] and [1]). *)
Inductive identifier :=
  | Numeric (n : nat)
  | Alphanumeric (s : string).

Record version := Version {
  major : nat;
  minor : nat;
  patch : nat;
  prerelease : list identifier
}.

(** [compareIdentifiers]: numbers by value and below every other
    identifier, the others as strings. *)
Definition compareIdentifiers (a b : identifier) : comparison :=
  match a, b with
  | Numeric n, Numeric m => Nat.compare n m
  | Numeric _, Alphanumeric _ => Lt
  | Alphanumeric _, Numeric _ => Gt
  | Alphanumeric s, Alphanumeric t => String.compare s t
  end.

(** The loop of [comparePre]: identifier by identifier, the shorter tag
    first when one runs out. *)
Fixpoint comparePre_loop (a b : list identifier) : comparison :=
  match a, b with
  | [], [] => Eq
  | _ :: _, [] => Gt
  | [], _ :: _ => Lt
  | x :: a', y :: b' =>
      match compareIdentifiers x y with
      | Eq => comparePre_loop a' b'
      | c => c
      end
  end.

(** [comparePre]: a release is above its pre-releases. *)
Definition comparePre (a b : version) : comparison :=
  match prerelease a, prerelease b with
  | _ :: _, [] => Lt
  | [], _ :: _ => Gt
  | [], [] => Eq
  | pa, pb => comparePre_loop pa pb
  end.

Definition compareMain (a b : version) : comparison :=
  match Nat.compare (major a) (major b) with
  | Eq =>
      match Nat.compare (minor a) (minor b) with
      | Eq => Nat.compare (patch a) (patch b)
      | c => c
      end
  | c => c
  end.

(** [semver.gte(a, b)] *)
Definition semver_gte (a b : version) : bool :=
  match compareMain a b with
  | Eq => match comparePre a b with Lt => false | _ => true end
  | Lt => false
  | Gt => true
  end.

(** [newrelic.agent] (present or not) and [process.version]. *)
Record process := Process {
  agent : bool;
  process_version : version
}.

Definition isSupportedVersion (p : process) : bool :=
  semver_gte (process_version p) (Version 16 12 0 []).

(** [s.includes(search)] *)
Fixpoint includes (s search : string) : bool :=
  String.prefix search s ||
  match s with
  | EmptyString => false
  | String _ rest => includes rest search
  end.

(** How often a character occurs in a text. *)
Fixpoint count_char (c : Ascii.ascii) (s : string) : nat :=
  match s with
  | EmptyString => 0
  | String a rest => (if Ascii.eqb a c then 1 else 0) + count_char c rest
  end.

(** The character [{]. *)
Definition open_brace : Ascii.ascii := Ascii.ascii_of_nat 123.

(** ** Hook arguments and results *)

Record resolve_context := ResolveContext {
  parentURL : option string;
  conditions : list string
}.

Definition isFromEsmLoader (context : option resolve_context) : bool :=
  match context with
  | None => false
  | Some c =>
      match parentURL c with
      | None | Some EmptyString => false
      | Some p => includes p "newrelic/esm-loader.mjs"
      end
  end.

(** What a resolve hook returns. *)
Record resolved_module := ResolvedModule {
  url : string;
  format : option string;
  shortCircuit : option bool
}.

Record load_context := LoadContext {
  lc_format : option string;
  lc_conditions : list string
}.

(** What a load hook returns. *)
Record load_result := LoadResult {
  lr_format : option string;
  lr_source : option string;
  lr_shortCircuit : option bool
}.

#[global] Instance resolved_module_eq_dec : EqDecision resolved_module.
Proof. solve_decision. Defined.
#[global] Instance load_result_eq_dec : EqDecision load_result.
Proof. solve_decision. Defined.

(** The two formats the resolve hook tells apart. An ES module cannot be
    changed once loaded, so it is instrumented by rewriting its source
    ([load] declares the rewritten source as ['module']); a CommonJS module
    is instrumented on its loaded exports object. *)
Definition rewrite_required_format : string := "module".
Definition live_mutation_format : string := "commonjs".

(** ** Module state *)

(** A value of [registeredSpecifiers]. *)
Record seen_url := SeenUrl {
  specifier : string;
  hasNrInstrumentation : bool
}.

(** The [details] of a message posted to the main thread. *)
Record details := Details {
  d_specifier : string;
  d_resolvedModule : resolved_module;
  d_filePath : string
}.

#[global] Instance seen_url_eq_dec : EqDecision seen_url.
Proof. solve_decision. Defined.
#[global] Instance details_eq_dec : EqDecision details.
Proof. solve_decision. Defined.

(** [shimmer.registeredInstrumentations], the [registeredSpecifiers] map and
    [preloadPort]: undefined until [globalPreload] ran, then a port, known
    by the messages posted on it and not yet delivered. *)
Record state := State {
  registeredInstrumentations : Registry.object;
  registeredSpecifiers : gmap string seen_url;
  preloadPort : option (list details)
}.

(** The state when the loader module has been evaluated:
    [registeredSpecifiers = new Map()] and [let preloadPort]. *)
Definition module_state (registry : Registry.object) : state :=
  {| registeredInstrumentations := registry;
     registeredSpecifiers := ∅;
     preloadPort := None |}.

(** ** Calls that read or change the state, and may raise *)

Definition M (A : Type) : Type := state -> outcome A * state.

Definition ret {A} (a : A) : M A := fun st => (Returned a, st).

Definition bind {A B} (m : M A) (k : A -> M B) : M B :=
  fun st =>
    match m st with
    | (Returned a, st') => k a st'
    | (Threw e, st') => (Threw e, st')
    end.

(** Awaiting a promise, or calling a function that may throw. *)
Definition settle {A} (o : outcome A) : M A := fun st => (o, st).

Definition gets {A} (f : state -> A) : M A := fun st => (Returned (f st), st).

Definition modify (f : state -> state) : M unit := fun st => (Returned tt, f st).

Notation "'do' x <- m 'in' k" := (bind m (fun x => k))
  (at level 10, x name, m at level 100, k at level 200).
Notation "'exec' m 'in' k" := (bind m (fun _ => k))
  (at level 10, m at level 100, k at level 200).

(** [registeredSpecifiers.set(url, seen)] *)
Definition registeredSpecifiers_set (u : string) (seen : seen_url) : M unit :=
  modify (fun st =>
    {| registeredInstrumentations := registeredInstrumentations st;
       registeredSpecifiers := <[u := seen]> (registeredSpecifiers st);
       preloadPort := preloadPort st |}).

(** [preloadPort.postMessage({ details })] *)
Definition postMessage (d : details) : M unit :=
  fun st =>
    match preloadPort st with
    | None =>
        (Threw (TypeError "Cannot read properties of undefined (reading 'postMessage')"), st)
    | Some pending =>
        (Returned tt,
         {| registeredInstrumentations := registeredInstrumentations st;
            registeredSpecifiers := registeredSpecifiers st;
            preloadPort := Some (pending ++ [d]) |})
    end.

(** [globalPreload({ port })], as far as the loader's own state goes. *)
Definition globalPreload (port : list details) : M unit :=
  modify (fun st =>
    {| registeredInstrumentations := registeredInstrumentations st;
       registeredSpecifiers := registeredSpecifiers st;
       preloadPort := Some port |}).

Section Hooks.

(** The process, and what the loader imports from elsewhere. *)
Variable proc : process.
Variable getInstrumentationNameFromModuleName : string -> string.
Variable fileURLToPath : string -> outcome string.
(** [esmShimPath.href] *)
Variable esmShimPath_href : string.
(** [Object.keys(await import(url))]: the export names of the module, or
    the error the import rejects with. *)
Variable import_keys : string -> outcome (list string).

(** [resolve(specifier, context, nextResolve)]. The next hook is called as
    [nextResolve(specifier, context, nextResolve)]; what it settles to is
    all the hook uses of it. *)
Definition resolve (specifier : string) (context : option resolve_context)
    (nextResolve : string -> option resolve_context -> outcome resolved_module)
  : M resolved_module :=
  if negb (agent proc) || negb (isSupportedVersion proc) || isFromEsmLoader context
  then settle (nextResolve specifier context)
  else
    do resolvedModule <- settle (nextResolve specifier context) in
    let url := url resolvedModule in
    let format := format resolvedModule in
    do seen <- gets (fun st => registeredSpecifiers st !! url) in
    exec (match seen with
    | Some _ =>
        (* the debug message is built from [fileURLToPath(url)] *)
        exec settle (fileURLToPath url) in ret tt
    | None =>
        if bool_decide (format = Some "module") then
          let instrumentationName := getInstrumentationNameFromModuleName specifier in
          do instrumentationDefinition <-
            gets (fun st =>
              Registry.get_property (registeredInstrumentations st) instrumentationName) in
          if Registry.truthy instrumentationDefinition
          then registeredSpecifiers_set url
                 {| specifier := specifier; hasNrInstrumentation := true |}
          else ret tt
        else if bool_decide (format = Some "commonjs") then
          do filePath <- settle (fileURLToPath url) in
          let details :=
            {| d_specifier := specifier;
               d_resolvedModule := resolvedModule;
               d_filePath := filePath |} in
          postMessage details
        else ret tt
    end) in
    ret resolvedModule.

Definition nl : string := String (Ascii.ascii_of_nat 10) EmptyString.

(** The text [props.map(...)] produces for one export name. *)
Definition export_binding (propName : string) : string :=
  nl +:+ "    let _" +:+ propName +:+ " = _wrappedModule." +:+ propName +:+
  nl +:+ "    export { _" +:+ propName +:+ " as " +:+ propName +:+ " }".

Definition import_shim_line : string :=
  "import wrapModule from '" +:+ esmShimPath_href +:+ "'".

Definition import_original_line (url : string) : string :=
  "import * as _originalModule from '" +:+ url +:+ "'".

Definition wrap_line (specifier trimmedUrl : string) : string :=
  "const _wrappedModule = wrapModule(_originalModule, '" +:+ specifier +:+
  "', '" +:+ trimmedUrl +:+ "')".

(** The template literal of [wrapEsmSource]. *)
Definition rewritten_source (url specifier trimmedUrl : string)
    (props : list string) : string :=
  nl +:+ "    " +:+ import_shim_line +:+
  nl +:+ "    " +:+ import_original_line url +:+
  nl +:+ "    " +:+ wrap_line specifier trimmedUrl +:+
  nl +:+ "    " +:+ String.concat nl (map export_binding props) +:+
  nl +:+ "  ".

Definition wrapEsmSource (url specifier : string) : M string :=
  do props <- settle (import_keys url) in
  do trimmedUrl <- settle (fileURLToPath url) in
  ret (rewritten_source url specifier trimmedUrl props).

(** [load(url, context, nextLoad)] *)
Definition load (url : string) (context : load_context)
    (nextLoad : string -> load_context -> outcome load_result)
  : M load_result :=
  if negb (agent proc) || negb (isSupportedVersion proc)
  then settle (nextLoad url context)
  else
    do seenUrl <- gets (fun st => registeredSpecifiers st !! url) in
    match seenUrl with
    | None => settle (nextLoad url context)
    | Some seen =>
        if negb (hasNrInstrumentation seen)
        then settle (nextLoad url context)
        else
          do rewrittenSource <- wrapEsmSource url (specifier seen) in
          ret {| lr_format := Some "module";
                 lr_source := Some rewrittenSource;
                 lr_shortCircuit := Some true |}
    end.

(** The classification [load] acts on. *)
Definition has_instrumentation (st : state) (url : string) : bool :=
  match registeredSpecifiers st !! url with
  | Some seen => hasNrInstrumentation seen
  | None => false
  end.

End Hooks.

End EsmLoader.

(** * Concrete data used in the examples below *)

Module Samples.

Import Registry.

(** [{ moduleName: 'db-client', onRequire: fn }] *)
Definition db_client : opts :=
  {| moduleName := Some "db-client"; onRequire := Some 1;
     onResolved := None; specifier := None |}.

(** [{ moduleName: 'toString', onResolved: fn }] *)
Definition to_string_instrumentation : opts :=
  {| moduleName := Some "toString"; onRequire := None;
     onResolved := Some 2; specifier := None |}.

(** [{ moduleName: 'db-client' }]: no hook. *)
Definition no_hooks : opts :=
  {| moduleName := Some "db-client"; onRequire := None;
     onResolved := None; specifier := None |}.

(** The table after [registerInstrumentation(db_client)]. *)
Definition pkgs_with_db_client : object :=
  snd (registerInstrumentation (Some db_client) pkgs).

(** A table built on an ordinary object literal, [{}]. *)
Definition object_literal : object :=
  {| proto := ObjectPrototype; own := ∅ |}.

(** *** A process and a resolver chain for the loader *)

Import EsmLoader.

(** Node 18.12.1 with the agent loaded; Node 14.21.3; no agent. *)
Definition node18 : process :=
  {| agent := true; process_version := Version 18 12 1 [] |}.
Definition node14 : process :=
  {| agent := true; process_version := Version 14 21 3 [] |}.
Definition no_agent : process :=
  {| agent := false; process_version := Version 18 12 1 [] |}.

(** Specifiers are their own instrumentation names. *)
Definition instrumentation_name (specifier : string) : string := specifier.

(** [fileURLToPath] drops the [file://] scheme and raises on any other. *)
Definition file_url_to_path (u : string) : outcome string :=
  if String.prefix "file://" u
  then Returned (String.substring 7 (String.length u - 7) u)
  else Threw (TypeError "ERR_INVALID_URL_SCHEME").

Definition db_client_url : string := "file:///app/node_modules/db-client/index.mjs".
Definition legacy_db_url : string := "file:///app/node_modules/legacy-db/index.js".

(** ['db-client'] resolves to an ES module, ['legacy-db'] to a CommonJS
    module, ['./db.mjs'] to the ES module of ['db-client'] again. *)
Definition db_client_module : resolved_module :=
  {| url := db_client_url; format := Some "module"; shortCircuit := None |}.

Definition legacy_db_module : resolved_module :=
  {| url := legacy_db_url; format := Some "commonjs"; shortCircuit := None |}.

Definition next_resolve (specifier : string) (context : option resolve_context)
  : outcome resolved_module :=
  if bool_decide (specifier = "db-client") || bool_decide (specifier = "./db.mjs")
  then Returned db_client_module
  else if bool_decide (specifier = "legacy-db")
  then Returned legacy_db_module
  else Threw (ChainError "ERR_MODULE_NOT_FOUND").

Definition next_load (u : string) (context : load_context) : outcome load_result :=
  Returned {| lr_format := lc_format context;
              lr_source := Some "export const connect = 1";
              lr_shortCircuit := None |}.

Definition import_export_names (u : string) : outcome (list string) :=
  if bool_decide (u = db_client_url)
  then Returned ["connect"; "default"]
  else Threw (ChainError "ERR_MODULE_NOT_FOUND").

Definition shim_href : string := "file:///app/node_modules/newrelic/lib/esm-shim.mjs".

Definition app_context : option resolve_context :=
  Some {| parentURL := Some "file:///app/index.mjs"; conditions := ["node"; "import"] |}.

Definition module_load_context : load_context :=
  {| lc_format := Some "module"; lc_conditions := ["node"; "import"] |}.

(** ['legacy-db'] registered the way ['db-client'] is. *)
Definition legacy_db : opts :=
  {| moduleName := Some "legacy-db"; onRequire := Some 3;
     onResolved := None; Registry.specifier := None |}.

(** The loader with ['db-client'] and ['legacy-db'] registered, before and
    after [globalPreload]; nothing is resolved yet. *)
Definition loaded : state :=
  module_state (registerAll [Some db_client; Some legacy_db] pkgs).

Definition started : state := snd (globalPreload [] loaded).

(** The loader once ['db-client'] has been resolved. *)
Definition db_client_resolved : state :=
  snd (resolve node18 instrumentation_name file_url_to_path
         "db-client" app_context next_resolve started).

End Samples.

(** * The main-thread handler of the loader's messages

    The source that [globalPreload] returns runs on the main thread; its
    [port.onmessage] handler takes the [details] that [resolve] posts and
    files the instrumentation of the specifier under the file path. *)

Module MainThread.

Import Registry.

(** Which of a run of calls ends up under a module name. *)
Definition registered_under (name : string) (o : option opts) : option opts :=
  match o with
  | Some d =>
      if hasValidRegisterOptions (Some d) && bool_decide (moduleName d = Some name)
      then Some d else None
  | None => None
  end.

(** What [registerInstrumentation] keeps true of a table: no prototype, no
    empty array, and every entry valid and filed under its own
    [moduleName]. *)
Definition well_formed (p : object) : Prop :=
  proto p = NullPrototype /\
  forall k l, own p !! k = Some l ->
    l <> [] /\
    forall d, d ∈ l ->
      hasValidRegisterOptions (Some d) = true /\ moduleName d = Some k.

(** [copy.moduleName = filePath; copy.specifier = specifier] *)
Definition retarget (filePath specifier : string) (copy : opts) : opts :=
  {| moduleName := Some filePath;
     onRequire := onRequire copy;
     onResolved := onResolved copy;
     Registry.specifier := Some specifier |}.

(** The two assignments act on the object itself, which is the [i]-th
    entry of the array stored under [key] (the spread copies the array, not
    its entries; every entry is an object of its own, as
    [registerInstrumentation] pushes them). *)
Definition assign_entry (o : object) (key : string) (i : nat) (d : opts) : object :=
  {| proto := proto o; own := alter (fun l => <[i := d]> l) key (own o) |}.

Section Handler.

Variable getInstrumentationNameFromModuleName : string -> string.

(** The callback of [forEach], on the [i]-th entry;
    [shimmer.registerInstrumentation] is [registerInstrumentation] of the
    registration table. *)
Definition forEach_callback (instrumentationName filePath specifier : string)
    (i : nat) (registeredInstrumentations : object) : outcome unit * object :=
  match own registeredInstrumentations !! instrumentationName ≫= (fun l => l !! i) with
  | None => (Returned tt, registeredInstrumentations)
  | Some copy =>
      let copy := retarget filePath specifier copy in
      registerInstrumentation (Some copy)
        (assign_entry registeredInstrumentations instrumentationName i copy)
  end.

Fixpoint forEach (instrumentationName filePath specifier : string)
    (indices : list nat) (registeredInstrumentations : object)
  : outcome unit * object :=
  match indices with
  | [] => (Returned tt, registeredInstrumentations)
  | i :: rest =>
      match forEach_callback instrumentationName filePath specifier i
              registeredInstrumentations with
      | (Returned _, after) =>
          forEach instrumentationName filePath specifier rest after
      | (Threw e, after) => (Threw e, after)
      end
  end.

(** [port.onmessage = ({ data: { details } }) => ...], on the table
    [shimmer.registeredInstrumentations] of the main thread. *)
Definition onmessage (details : EsmLoader.details)
    (registeredInstrumentations : object) : outcome unit * object :=
  let specifier := EsmLoader.d_specifier details in
  let filePath := EsmLoader.d_filePath details in
  let instrumentationName := getInstrumentationNameFromModuleName specifier in
  match get_property registeredInstrumentations instrumentationName with
  | Undefined => (Returned tt, registeredInstrumentations)
  | Inherited _ =>
      (Threw (TypeError "instrumentationDefinition is not iterable"),
       registeredInstrumentations)
  | Array instrumentationDefinition =>
      forEach instrumentationName filePath specifier
        (seq 0 (length instrumentationDefinition)) registeredInstrumentations
  end.

End Handler.

End MainThread.

(** * Supportability metrics of the loader *)

Module Startup.

Import EsmLoader.

(** [NAMES.FEATURES.ESM] *)
Record esm_names := EsmNames {
  LOADER : string;
  UNSUPPORTED_LOADER : string;
  CUSTOM_INSTRUMENTATION : string
}.

(** [agent.metrics]: the call count of every metric created so far. *)
Definition getOrCreateMetric_incrementCallCount (name : string)
    (metrics : gmap string nat) : gmap string nat :=
  <[name := S (default 0 (metrics !! name))]> metrics.

(** A call of [logger.warn]: the format and its argument. *)
Record warning := Warning {
  w_format : string;
  w_version : version
}.

Definition unsupported_warning : string :=
  "New Relic for Node.js ESM loader requires a version of Node >= v16.12.0; your version is %s.  Instrumentation will not be registered.".

(** [addESMSupportabilityMetrics(agent)]: the agent's metrics, if there is
    an agent, and the warnings logged. [customEntryPoint] is the string
    configured, if any. *)
Definition addESMSupportabilityMetrics (NAMES : esm_names) (proc : process)
    (customEntryPoint : option string)
    (agent : option (gmap string nat)) (warnings : list warning)
  : option (gmap string nat) * list warning :=
  match agent with
  | None => (None, warnings)
  | Some metrics =>
      let '(metrics, warnings) :=
        if isSupportedVersion proc
        then (getOrCreateMetric_incrementCallCount (LOADER NAMES) metrics, warnings)
        else
          (getOrCreateMetric_incrementCallCount (UNSUPPORTED_LOADER NAMES) metrics,
           warnings ++ [{| w_format := unsupported_warning;
                           w_version := process_version proc |}]) in
      let metrics :=
        if Registry.truthy_string customEntryPoint
        then getOrCreateMetric_incrementCallCount (CUSTOM_INSTRUMENTATION NAMES) metrics
        else metrics in
      (Some metrics, warnings)
  end.

End Startup.

(** * More concrete data *)

Module Scenarios.

Import Registry EsmLoader Samples.

(** A request made by the loader's own file. *)
Definition loader_context : option resolve_context :=
  Some {| parentURL := Some "file:///app/node_modules/newrelic/esm-loader.mjs";
          conditions := ["node"; "import"] |}.

Definition fs_module : resolved_module :=
  {| url := "node:fs"; format := Some "builtin"; shortCircuit := Some true |}.

(** A chain that knows the built-in [fs] next to the sample modules. *)
Definition next_resolve_builtin (specifier : string)
    (context : option resolve_context) : outcome resolved_module :=
  if bool_decide (specifier = "fs") then Returned fs_module
  else next_resolve specifier context.

(** An import that rejects, and a URL conversion that raises. *)
Definition import_fails (u : string) : outcome (list string) :=
  Threw (ChainError "ERR_MODULE_NOT_FOUND").

(** The message [resolve] posts for ['legacy-db']. *)
Definition legacy_db_details : details :=
  {| d_specifier := "legacy-db";
     d_resolvedModule := legacy_db_module;
     d_filePath := "/app/node_modules/legacy-db/index.js" |}.

(** The table of the sample loader. *)
Definition sample_registry : object :=
  registerAll [Some db_client; Some legacy_db] pkgs.

Definition names : Startup.esm_names :=
  {| Startup.LOADER := "Supportability/Features/ESM/Loader";
     Startup.UNSUPPORTED_LOADER := "Supportability/Features/ESM/UnsupportedLoader";
     Startup.CUSTOM_INSTRUMENTATION := "Supportability/Features/ESM/CustomInstrumentation" |}.

(** A CommonJS module that is not a file. *)
Definition remote_module : resolved_module :=
  {| url := "https://cdn.example/legacy-db.js"; format := Some "commonjs";
     shortCircuit := None |}.

Definition next_resolve_remote (specifier : string)
    (context : option resolve_context) : outcome resolved_module :=
  Returned remote_module.

(** The parent of a request made by the loader's own file. *)
Definition loader_parent : resolve_context :=
  {| parentURL := Some "file:///app/node_modules/newrelic/esm-loader.mjs";
     conditions := ["node"; "import"] |}.

(** [/] *)
Definition slash : Ascii.ascii := Ascii.ascii_of_nat 47.

(** Node [v16.12.0-rc.1] and Node [v16.12.0], each with the agent. *)
Definition node16_rc : process :=
  {| agent := true;
     process_version := Version 16 12 0 [Alphanumeric "rc"; Numeric 1] |}.
Definition node16 : process :=
  {| agent := true; process_version := Version 16 12 0 [] |}.

End Scenarios.

(** * Properties of the registration table *)

Module RegistryFacts.

Import Registry.

Lemma get_set_property_eq o k l :
  get_property (set_property o k l) k = Array l.
Proof.
  unfold get_property, set_property; simpl.
  by rewrite lookup_insert_eq.
Qed.

Lemma get_set_property_ne o k k' l :
  k ≠ k' -> get_property (set_property o k l) k' = get_property o k'.
Proof.
  intros Hne. unfold get_property, set_property; simpl.
  by rewrite lookup_insert_ne.
Qed.

Lemma set_set_property o k l l' :
  set_property (set_property o k l) k l' = set_property o k l'.
Proof.
  unfold set_property; simpl. by rewrite insert_insert_eq.
Qed.

(** On a table without a prototype a read is either nothing or an array. *)
Lemma get_property_null o k :
  proto o = NullPrototype ->
  get_property o k = Undefined \/ exists l, get_property o k = Array l.
Proof.
  intros Hp. unfold get_property. rewrite Hp.
  destruct (own o !! k); eauto.
Qed.

(** Which calls [hasValidRegisterOptions] turns down. *)
Lemma hasValidRegisterOptions_false o :
  hasValidRegisterOptions o = false <->
  o = None \/
  exists d, o = Some d /\
    (moduleName d = None \/ moduleName d = Some EmptyString \/
     (onRequire d = None /\ onResolved d = None)).
Proof.
  split.
  - destruct o as [d|]; [|by left]. intros H. right. exists d. split; [done|].
    unfold hasValidRegisterOptions in H.
    destruct (moduleName d) as [[|c s]|]; simpl in H; auto.
    destruct (onRequire d), (onResolved d); simpl in H; try discriminate.
    auto.
  - intros [->|(d & -> & H)]; [done|].
    unfold hasValidRegisterOptions.
    destruct H as [-> | [-> | [-> ->]]]; try done.
    by destruct (moduleName d) as [[|c s]|].
Qed.

Lemma hasValidRegisterOptions_true d :
  hasValidRegisterOptions (Some d) = true ->
  exists c s, moduleName d = Some (String c s).
Proof.
  unfold hasValidRegisterOptions.
  destruct (moduleName d) as [[|c s]|]; simpl; try discriminate. eauto.
Qed.

(** What a valid registration does to a table without a prototype. *)
Lemma registerInstrumentation_valid p d :
  proto p = NullPrototype ->
  hasValidRegisterOptions (Some d) = true ->
  registerInstrumentation (Some d) p =
    (Returned tt,
     set_property p (property_key (moduleName d))
       (descriptors (get_property p (property_key (moduleName d))) ++ [d])).
Proof.
  intros Hp Hv. unfold registerInstrumentation. rewrite Hv. simpl.
  destruct (get_property_null p (property_key (moduleName d)) Hp) as [E|[l E]];
    rewrite E; simpl.
  - rewrite get_set_property_eq. by rewrite set_set_property.
  - by rewrite E.
Qed.

Lemma registerInstrumentation_proto o p :
  proto (snd (registerInstrumentation o p)) = proto p.
Proof.
  unfold registerInstrumentation.
  destruct (hasValidRegisterOptions o); simpl; [|done].
  destruct o as [d|]; [|done].
  destruct (truthy (get_property p _)); simpl;
    match goal with |- context [match ?g with _ => _ end] => destruct g end;
    done.
Qed.

Lemma registerAll_proto calls p :
  proto (registerAll calls p) = proto p.
Proof.
  revert p. induction calls as [|o calls IH]; intros p; [done|].
  unfold registerAll in *. simpl. rewrite IH.
  apply registerInstrumentation_proto.
Qed.

Lemma registerInstrumentation_invalid o p :
  hasValidRegisterOptions o = false ->
  registerInstrumentation o p = (Returned tt, p).
Proof. intros H. unfold registerInstrumentation. by rewrite H. Qed.

(** A name no valid call has used stays undefined on a table without a
    prototype, whatever else is registered. *)
Lemma registerAll_unregistered calls name : forall p,
  proto p = NullPrototype ->
  get_property p name = Undefined ->
  (forall d, Some d ∈ calls -> hasValidRegisterOptions (Some d) = true ->
             moduleName d ≠ Some name) ->
  get_property (registerAll calls p) name = Undefined.
Proof.
  induction calls as [|o calls IH]; intros p Hp Hu Hcalls; [done|].
  change (registerAll (o :: calls) p)
    with (registerAll calls (snd (registerInstrumentation o p))).
  apply IH.
  - by rewrite registerInstrumentation_proto.
  - destruct (hasValidRegisterOptions o) eqn:Hv.
    + destruct o as [d|]; [|done].
      rewrite (registerInstrumentation_valid p d Hp Hv). simpl.
      destruct (hasValidRegisterOptions_true d Hv) as (c & s & Hm).
      rewrite get_set_property_ne; [done|].
      rewrite Hm. simpl. intros E.
      apply (Hcalls d); [left | done | by rewrite Hm, E].
    + by rewrite (registerInstrumentation_invalid o p Hv).
  - intros d Hd. apply Hcalls. by right.
Qed.

(** ** C6 *)

(** C6, as stated, fails: registering the same descriptor a second time
    leaves it twice under its module name, not once. *)
Lemma register_same_descriptor_twice :
  hasValidRegisterOptions (Some Samples.db_client) = true /\
  descriptors
    (get_property
       (snd (registerInstrumentation (Some Samples.db_client)
               Samples.pkgs_with_db_client))
       "db-client")
  = [Samples.db_client; Samples.db_client] /\
  count_occ opts_eq_dec
    (descriptors
       (get_property
          (snd (registerInstrumentation (Some Samples.db_client)
                  Samples.pkgs_with_db_client))
          "db-client"))
    Samples.db_client ≠ 1.
Proof.
  split; [reflexivity|]. split; [by vm_compute|].
  vm_compute. discriminate.
Qed.

(** C6 (amended): for every valid descriptor [d], [register d] returns and
    appends one copy of [d] after the descriptors already registered under
    [d]'s module name: [d] occurs there once more than before, so exactly
    once when it was not registered under that name before; entries under
    every other module name are unchanged. *)
Theorem register_appends_descriptor (p : object) (d : opts) :
  proto p = NullPrototype ->
  hasValidRegisterOptions (Some d) = true ->
  let name := property_key (moduleName d) in
  let before := descriptors (get_property p name) in
  let result := registerInstrumentation (Some d) p in
  let after := descriptors (get_property (snd result) name) in
  moduleName d = Some name /\
  fst result = Returned tt /\
  after = before ++ [d] /\
  count_occ opts_eq_dec after d = S (count_occ opts_eq_dec before d) /\
  (d ∉ before -> count_occ opts_eq_dec after d = 1) /\
  (forall k, k ≠ name -> get_property (snd result) k = get_property p k).
Proof.
  intros Hp Hv name before result after.
  assert (Hafter : after = before ++ [d]).
  { unfold after, result. rewrite (registerInstrumentation_valid p d Hp Hv).
    simpl. by rewrite get_set_property_eq. }
  assert (Hcount : count_occ opts_eq_dec after d
                   = S (count_occ opts_eq_dec before d)).
  { rewrite Hafter, count_occ_app. simpl.
    destruct (opts_eq_dec d d); [lia | done]. }
  repeat split.
  - destruct (hasValidRegisterOptions_true d Hv) as (c & s & Hm).
    unfold name. by rewrite Hm.
  - unfold result. by rewrite (registerInstrumentation_valid p d Hp Hv).
  - exact Hafter.
  - exact Hcount.
  - intros Hnot. rewrite Hcount. f_equal.
    apply count_occ_not_In. by rewrite <- list_elem_of_In.
  - intros k Hk. unfold result.
    rewrite (registerInstrumentation_valid p d Hp Hv). simpl.
    by rewrite get_set_property_ne.
Qed.

Lemma register_appends_descriptor_witness :
  descriptors
    (get_property
       (snd (registerInstrumentation (Some Samples.to_string_instrumentation)
               Samples.pkgs_with_db_client))
       "toString")
  = [] ++ [Samples.to_string_instrumentation].
Proof.
  exact (proj1 (proj2 (proj2
    (register_appends_descriptor Samples.pkgs_with_db_client
       Samples.to_string_instrumentation eq_refl eq_refl)))).
Defined.

(** ** C7 *)

(** C7: for every invalid descriptor (absent options, a missing or empty
    [moduleName], or neither hook present) [register] returns without
    raising and the table is the one it was, under every module name. *)
Theorem register_invalid_no_effect (o : option opts) (p : object) :
  (o = None \/
   exists d, o = Some d /\
     (moduleName d = None \/ moduleName d = Some EmptyString \/
      (onRequire d = None /\ onResolved d = None))) ->
  registerInstrumentation o p = (Returned tt, p) /\
  (forall k, get_property (snd (registerInstrumentation o p)) k
             = get_property p k).
Proof.
  intros H. apply hasValidRegisterOptions_false in H.
  rewrite (registerInstrumentation_invalid o p H). by split.
Qed.

Lemma register_invalid_no_effect_witness :
  registerInstrumentation (Some Samples.no_hooks) Samples.pkgs_with_db_client
  = (Returned tt, Samples.pkgs_with_db_client).
Proof.
  apply (register_invalid_no_effect (Some Samples.no_hooks)).
  right. exists Samples.no_hooks. split; [reflexivity|].
  right. right. split; reflexivity.
Defined.

(** ** C10 *)

(** An ordinary object literal would not do: a read of ['toString'] finds
    the inherited method, and a registration under that name raises. *)
Lemma object_literal_inherits :
  get_property Samples.object_literal "toString" = Inherited "toString" /\
  fst (registerInstrumentation (Some Samples.to_string_instrumentation)
         Samples.object_literal)
  = Threw (TypeError "pkgs[opts.moduleName].push is not a function").
Proof. vm_compute. by split. Qed.

(** C10: [pkgs] has no prototype, so after any run of registration calls a
    read under a module name that no valid call has used is undefined,
    also for the names of [Object.prototype]'s members; and a valid
    registration under such a name is stored and read back as for any
    key. *)
Theorem pkgs_unregistered_name (calls : list (option opts)) (name : string) :
  (forall d, Some d ∈ calls -> hasValidRegisterOptions (Some d) = true ->
             moduleName d ≠ Some name) ->
  let table := registerAll calls pkgs in
  proto table = NullPrototype /\
  get_property table name = Undefined /\
  descriptors (get_property table name) = [] /\
  (forall d, hasValidRegisterOptions (Some d) = true ->
             moduleName d = Some name ->
             fst (registerInstrumentation (Some d) table) = Returned tt /\
             get_property (snd (registerInstrumentation (Some d) table)) name
             = Array [d]).
Proof.
  intros Hcalls table.
  assert (Hp : proto table = NullPrototype) by apply registerAll_proto.
  assert (Hu : get_property table name = Undefined).
  { by apply registerAll_unregistered. }
  repeat split; [done | done | by rewrite Hu | |].
  - intros. by rewrite (registerInstrumentation_valid table d Hp).
  - rewrite (registerInstrumentation_valid table d Hp) by done.
    simpl. rewrite H0. simpl. rewrite get_set_property_eq. by rewrite Hu.
Qed.

Lemma pkgs_unregistered_name_witness :
  get_property (registerAll [Some Samples.db_client; None] pkgs) "toString"
  = Undefined /\
  get_property
    (snd (registerInstrumentation (Some Samples.to_string_instrumentation)
            (registerAll [Some Samples.db_client; None] pkgs)))
    "toString"
  = Array [Samples.to_string_instrumentation].
Proof.
  assert (H : forall d, Some d ∈ [Some Samples.db_client; None] ->
                hasValidRegisterOptions (Some d) = true ->
                moduleName d ≠ Some "toString").
  { intros d Hd _. apply list_elem_of_In in Hd. simpl in Hd.
    destruct Hd as [Hd|[Hd|[]]]; [|discriminate].
    injection Hd as <-. discriminate. }
  pose proof (pkgs_unregistered_name
                [Some Samples.db_client; None] "toString" H) as (_ & Hu & _ & Hr).
  split; [exact Hu|].
  exact (proj2 (Hr Samples.to_string_instrumentation eq_refl eq_refl)).
Defined.

End RegistryFacts.

(** * The context-manager factory picks by one flag *)

Module ContextManagerFacts.

Import ContextManager.

Lemma createContextManager_flag_on c :
  new_async_context (feature_flag c) = true ->
  createContextManager c = AsyncLocalContextManager.
Proof. unfold createContextManager. by intros ->. Qed.

Lemma createContextManager_flag_off c :
  new_async_context (feature_flag c) = false ->
  createContextManager c = LegacyContextManager.
Proof. unfold createContextManager. by intros ->. Qed.

(** C9: [createContextManager] returns the AsyncLocal implementation
    exactly when [feature_flag.new_async_context] is set and the legacy one
    otherwise; two configurations that agree on that flag get the same
    implementation, whatever else they hold. *)
Theorem createContextManager_by_flag (c : config) :
  (createContextManager c = AsyncLocalContextManager <->
   new_async_context (feature_flag c) = true) /\
  (createContextManager c = LegacyContextManager <->
   new_async_context (feature_flag c) = false) /\
  (forall c' : config,
     new_async_context (feature_flag c') = new_async_context (feature_flag c) ->
     createContextManager c' = createContextManager c).
Proof.
  repeat split.
  - unfold createContextManager.
    by destruct (new_async_context (feature_flag c)).
  - apply createContextManager_flag_on.
  - unfold createContextManager.
    by destruct (new_async_context (feature_flag c)).
  - apply createContextManager_flag_off.
  - intros c' Hflag. unfold createContextManager. by rewrite Hflag.
Qed.

End ContextManagerFacts.

(** * Properties of the loader hooks *)

Module EsmLoaderFacts.

Import EsmLoader.

(** ** Text *)

Lemma includes_eq s search :
  includes s search =
  String.prefix search s ||
  match s with
  | EmptyString => false
  | String _ rest => includes rest search
  end.
Proof. by destruct s. Qed.

Lemma append_String c s t : String c s +:+ t = String c (s +:+ t).
Proof. reflexivity. Qed.

Lemma append_empty_r s : s +:+ EmptyString = s.
Proof. induction s as [|c s IH]; [done|]. by rewrite append_String, IH. Qed.

Lemma prefix_append s post : String.prefix s (s +:+ post) = true.
Proof.
  induction s as [|c s IH]; simpl; [by destruct post|].
  destruct (Ascii.ascii_dec c c); [exact IH | done].
Qed.

Lemma prefix_append_l s t post :
  String.prefix s t = true -> String.prefix s (t +:+ post) = true.
Proof.
  revert t. induction s as [|c s IH]; intros t; [by destruct t, post|].
  destruct t as [|c' t]; simpl; [done|].
  destruct (Ascii.ascii_dec c c'); [apply IH | done].
Qed.

(** A text includes what it starts with, ... *)
Lemma includes_here s post : includes (s +:+ post) s = true.
Proof. rewrite includes_eq. by rewrite prefix_append. Qed.

Lemma includes_self s : includes s s = true.
Proof.
  pose proof (includes_here s EmptyString) as H.
  by rewrite append_empty_r in H.
Qed.

(** ... what its tail includes, ... *)
Lemma includes_later pre s search :
  includes s search = true -> includes (pre +:+ s) search = true.
Proof.
  intros H. induction pre as [|c pre IH]; [exact H|].
  rewrite includes_eq. simpl. rewrite IH. apply orb_true_r.
Qed.

(** ... and what a front part of it includes. *)
Lemma includes_earlier s post search :
  includes s search = true -> includes (s +:+ post) search = true.
Proof.
  induction s as [|c s IH]; intros H.
  - destruct search; [by destruct post | done].
  - rewrite includes_eq in H. rewrite includes_eq.
    apply orb_true_iff in H as [H|H].
    + by rewrite (prefix_append_l _ _ _ H).
    + simpl. rewrite (IH H). apply orb_true_r.
Qed.

(** Every joined piece is part of the joined text. *)
Lemma includes_concat sep (l : list string) x :
  x ∈ l -> includes (String.concat sep l) x = true.
Proof.
  induction l as [|y l IH]; intros Hx; [by apply elem_of_nil in Hx|].
  apply elem_of_cons in Hx.
  destruct l as [|z l].
  - destruct Hx as [->|Hx]; [|by apply elem_of_nil in Hx].
    apply includes_self.
  - change (String.concat sep (y :: z :: l))
      with (y +:+ sep +:+ String.concat sep (z :: l)).
    destruct Hx as [->|Hx]; [apply includes_here|].
    apply includes_later, includes_later, IH, Hx.
Qed.

Lemma count_char_append c s t :
  count_char c (s +:+ t) = count_char c s + count_char c t.
Proof.
  induction s as [|a s IH]; [done|].
  rewrite append_String. simpl. rewrite IH. lia.
Qed.

Lemma count_char_concat c sep (l : list string) :
  count_char c sep = 0 ->
  count_char c (String.concat sep l) = sum_list (map (count_char c) l).
Proof.
  intros Hsep. induction l as [|x l IH]; [done|].
  destruct l as [|y l].
  - simpl. lia.
  - change (String.concat sep (x :: y :: l))
      with (x +:+ sep +:+ String.concat sep (y :: l)).
    rewrite !count_char_append, IH, Hsep. simpl. lia.
Qed.

(** ** The hooks, case by case *)

Ltac run_hook :=
  unfold bind, settle, gets, ret, modify, registeredSpecifiers_set; simpl.

Section Hooks.

Variable proc : process.
Variable getInstrumentationNameFromModuleName : string -> string.
Variable fileURLToPath : string -> outcome string.
Variable esmShimPath_href : string.
Variable import_keys : string -> outcome (list string).

Local Abbreviation resolve := (resolve proc getInstrumentationNameFromModuleName fileURLToPath).
Local Abbreviation load := (load proc fileURLToPath esmShimPath_href import_keys).
Local Abbreviation wrapEsmSource := (wrapEsmSource fileURLToPath esmShimPath_href import_keys).

(** The guard of [resolve] sends the call straight down the chain. *)
Lemma resolve_guarded specifier context nextResolve st :
  agent proc = false \/ isSupportedVersion proc = false \/
  isFromEsmLoader context = true ->
  resolve specifier context nextResolve st = (nextResolve specifier context, st).
Proof.
  intros H. unfold EsmLoader.resolve.
  assert (negb (agent proc) || negb (isSupportedVersion proc)
          || isFromEsmLoader context = true) as ->; [|done].
  destruct (agent proc), (isSupportedVersion proc), (isFromEsmLoader context);
    simpl; destruct H as [H | [H | H]]; done.
Qed.

Lemma load_guarded u context nextLoad st :
  agent proc = false \/ isSupportedVersion proc = false ->
  load u context nextLoad st = (nextLoad u context, st).
Proof.
  intros H. unfold EsmLoader.load.
  assert (negb (agent proc) || negb (isSupportedVersion proc) = true) as ->;
    [|done].
  destruct (agent proc), (isSupportedVersion proc);
    simpl; destruct H as [H | H]; done.
Qed.

(** When the chain raises, so does [resolve], and nothing changes. *)
Lemma resolve_next_threw specifier context nextResolve st e :
  nextResolve specifier context = Threw e ->
  resolve specifier context nextResolve st = (Threw e, st).
Proof.
  intros H. unfold EsmLoader.resolve.
  destruct (_ || _); run_hook; by rewrite H.
Qed.

(** Past the guard, with a resolved module in hand. *)
Lemma resolve_active specifier context nextResolve st rm :
  agent proc = true -> isSupportedVersion proc = true ->
  isFromEsmLoader context = false ->
  nextResolve specifier context = Returned rm ->
  resolve specifier context nextResolve st =
    match registeredSpecifiers st !! url rm with
    | Some _ =>
        match fileURLToPath (url rm) with
        | Returned _ => (Returned rm, st)
        | Threw e => (Threw e, st)
        end
    | None =>
        if bool_decide (format rm = Some "module") then
          if Registry.truthy
               (Registry.get_property (registeredInstrumentations st)
                  (getInstrumentationNameFromModuleName specifier))
          then (Returned rm,
                {| registeredInstrumentations := registeredInstrumentations st;
                   registeredSpecifiers :=
                     <[url rm := {| specifier := specifier;
                                    hasNrInstrumentation := true |}]>
                       (registeredSpecifiers st);
                   preloadPort := preloadPort st |})
          else (Returned rm, st)
        else if bool_decide (format rm = Some "commonjs") then
          match fileURLToPath (url rm) with
          | Threw e => (Threw e, st)
          | Returned filePath =>
              match preloadPort st with
              | None =>
                  (Threw (TypeError
                     "Cannot read properties of undefined (reading 'postMessage')"),
                   st)
              | Some pending =>
                  (Returned rm,
                   {| registeredInstrumentations := registeredInstrumentations st;
                      registeredSpecifiers := registeredSpecifiers st;
                      preloadPort :=
                        Some (pending ++
                              [{| d_specifier := specifier;
                                  d_resolvedModule := rm;
                                  d_filePath := filePath |}]) |})
              end
          end
        else (Returned rm, st)
    end.
Proof.
  intros Ha Hv Hl Hn. unfold EsmLoader.resolve.
  rewrite Ha, Hv, Hl. simpl. run_hook. rewrite Hn.
  destruct (registeredSpecifiers st !! url rm).
  - by destruct (fileURLToPath (url rm)).
  - case_bool_decide.
    + by destruct (Registry.truthy _).
    + case_bool_decide; [|done].
      destruct (fileURLToPath (url rm)); [|done].
      unfold postMessage. by destruct (preloadPort st).
Qed.

(** The guard either holds the hook back or lets it through. *)
Lemma guard_cases context :
  (agent proc = false \/ isSupportedVersion proc = false \/
   isFromEsmLoader context = true) \/
  (agent proc = true /\ isSupportedVersion proc = true /\
   isFromEsmLoader context = false).
Proof.
  destruct (agent proc), (isSupportedVersion proc), (isFromEsmLoader context);
    auto.
Qed.

(** [resolve] never touches the registration table. *)
Lemma resolve_registry specifier context nextResolve st :
  registeredInstrumentations (snd (resolve specifier context nextResolve st))
  = registeredInstrumentations st.
Proof.
  destruct (guard_cases context) as [Hg | (Ha & Hv & Hl)].
  { by rewrite resolve_guarded. }
  destruct (nextResolve specifier context) as [rm|e] eqn:Hn.
  2: { by rewrite (resolve_next_threw _ _ _ _ e). }
  rewrite (resolve_active _ _ _ _ rm) by done.
  repeat (case_match; simpl; try done).
Qed.

(** ** C1 *)

(** C1 (amended): past the guard of [resolve] (agent present, runtime
    supported, request not from the loader itself), for a resolved URL with
    no prior record, if the module's format is the rewrite-required format
    (['module']) and the registry holds at least one descriptor under the
    specifier's instrumentation name, then a record marking the URL as
    instrumented is stored, which is what [load] later reads. *)
Theorem resolve_records_rewrite_required_module
    specifier context nextResolve st rm d l :
  agent proc = true -> isSupportedVersion proc = true ->
  isFromEsmLoader context = false ->
  nextResolve specifier context = Returned rm ->
  registeredSpecifiers st !! url rm = None ->
  format rm = Some rewrite_required_format ->
  Registry.get_property (registeredInstrumentations st)
    (getInstrumentationNameFromModuleName specifier) = Registry.Array (d :: l) ->
  exists st',
    resolve specifier context nextResolve st = (Returned rm, st') /\
    registeredSpecifiers st' !! url rm
    = Some {| specifier := specifier; hasNrInstrumentation := true |} /\
    has_instrumentation st' (url rm) = true /\
    (forall u, u ≠ url rm ->
       registeredSpecifiers st' !! u = registeredSpecifiers st !! u) /\
    registeredInstrumentations st' = registeredInstrumentations st /\
    preloadPort st' = preloadPort st.
Proof.
  intros Ha Hv Hl Hn Hnone Hf Hreg.
  eexists. split.
  { rewrite (resolve_active _ _ _ _ rm) by done.
    rewrite Hnone, Hf, Hreg. simpl. reflexivity. }
  simpl. unfold has_instrumentation. simpl.
  rewrite lookup_insert_eq. repeat split; try done.
  intros u Hu. by rewrite lookup_insert_ne.
Qed.

(** ** C2 *)

(** C2 (amended): past the guard of [resolve], for a resolved URL with no
    prior record whose format is the live-mutation format (['commonjs']),
    once [globalPreload] has handed over the port and the URL has a file
    path, [resolve] posts the specifier, the resolved module record and the
    file path on the port and returns the record of the next resolver; the
    message is still pending and the registry is as it was when it
    returns. *)
Theorem resolve_notifies_for_live_mutation_module
    specifier context nextResolve st rm filePath pending :
  agent proc = true -> isSupportedVersion proc = true ->
  isFromEsmLoader context = false ->
  nextResolve specifier context = Returned rm ->
  registeredSpecifiers st !! url rm = None ->
  format rm = Some live_mutation_format ->
  fileURLToPath (url rm) = Returned filePath ->
  preloadPort st = Some pending ->
  exists st',
    resolve specifier context nextResolve st = (Returned rm, st') /\
    preloadPort st'
    = Some (pending ++ [{| d_specifier := specifier;
                           d_resolvedModule := rm;
                           d_filePath := filePath |}]) /\
    registeredInstrumentations st' = registeredInstrumentations st /\
    registeredSpecifiers st' = registeredSpecifiers st.
Proof.
  intros Ha Hv Hl Hn Hnone Hf Hpath Hport.
  eexists. split.
  { rewrite (resolve_active _ _ _ _ rm) by done.
    rewrite Hnone, Hf, Hpath, Hport. simpl. reflexivity. }
  done.
Qed.

(** ** C4 *)

(** C4 (amended): whatever the specifier, the context and the state, a
    value [resolve] returns is the very record the next resolver returned,
    and when the next resolver raises, [resolve] raises the same error.
    When the next resolver returns, [resolve] returns its record on every
    path but these, where it raises while observing it: [fileURLToPath]
    raises for a URL that has a record or whose format is ['commonjs'], or
    the port is still undefined for a ['commonjs'] URL without a record. *)
Theorem resolve_returns_next_result specifier context nextResolve st :
  (forall rm st',
     resolve specifier context nextResolve st = (Returned rm, st') ->
     nextResolve specifier context = Returned rm) /\
  (forall e,
     nextResolve specifier context = Threw e ->
     resolve specifier context nextResolve st = (Threw e, st)) /\
  (forall rm,
     nextResolve specifier context = Returned rm ->
     fst (resolve specifier context nextResolve st) =
       if negb (agent proc) || negb (isSupportedVersion proc)
          || isFromEsmLoader context
       then Returned rm
       else
         match registeredSpecifiers st !! url rm with
         | Some _ =>
             match fileURLToPath (url rm) with
             | Returned _ => Returned rm
             | Threw e => Threw e
             end
         | None =>
             if bool_decide (format rm = Some "commonjs") then
               match fileURLToPath (url rm) with
               | Threw e => Threw e
               | Returned _ =>
                   match preloadPort st with
                   | Some _ => Returned rm
                   | None =>
                       Threw (TypeError
                         "Cannot read properties of undefined (reading 'postMessage')")
                   end
               end
             else Returned rm
         end) /\
  (forall rm filePath,
     nextResolve specifier context = Returned rm ->
     fileURLToPath (url rm) = Returned filePath ->
     is_Some (preloadPort st) ->
     fst (resolve specifier context nextResolve st) = Returned rm).
Proof.
  assert (Hcases : forall rm,
     nextResolve specifier context = Returned rm ->
     fst (resolve specifier context nextResolve st) =
       if negb (agent proc) || negb (isSupportedVersion proc)
          || isFromEsmLoader context
       then Returned rm
       else
         match registeredSpecifiers st !! url rm with
         | Some _ =>
             match fileURLToPath (url rm) with
             | Returned _ => Returned rm
             | Threw e => Threw e
             end
         | None =>
             if bool_decide (format rm = Some "commonjs") then
               match fileURLToPath (url rm) with
               | Threw e => Threw e
               | Returned _ =>
                   match preloadPort st with
                   | Some _ => Returned rm
                   | None =>
                       Threw (TypeError
                         "Cannot read properties of undefined (reading 'postMessage')")
                   end
               end
             else Returned rm
         end).
  { intros rm Hn.
    destruct (guard_cases context) as [Hg | (Ha & Hv & Hl)].
    { rewrite resolve_guarded, Hn by done. simpl.
      destruct (agent proc), (isSupportedVersion proc), (isFromEsmLoader context);
        simpl; destruct Hg as [Hg | [Hg | Hg]]; done. }
    rewrite (resolve_active _ _ _ _ rm) by done.
    rewrite Ha, Hv, Hl. simpl.
    destruct (registeredSpecifiers st !! url rm).
    - by destruct (fileURLToPath (url rm)).
    - case_bool_decide as Hmod.
      + rewrite bool_decide_eq_false_2 by congruence.
        by destruct (Registry.truthy _).
      + case_bool_decide; [|done].
        destruct (fileURLToPath (url rm)); [|done].
        by destruct (preloadPort st). }
  split; [|split; [|split]].
  - intros rm st' Hr.
    destruct (nextResolve specifier context) as [rm'|e] eqn:Hn.
    + pose proof (Hcases rm' eq_refl) as H. rewrite Hr in H. simpl in H.
      repeat case_match; congruence.
    + rewrite (resolve_next_threw _ _ _ _ e) in Hr; [discriminate | done].
  - intros e Hn. by apply resolve_next_threw.
  - exact Hcases.
  - intros rm filePath Hn Hpath [pending Hport].
    rewrite (Hcases rm Hn), Hpath, Hport. by repeat case_match.
Qed.

(** ** C5 *)

(** C5: with the agent absent or the runtime unsupported, [resolve] and
    [load] hand the call to the next hook and return its result as it is;
    the state (registry, record table, port) is the one before the call, and
    the outcome is the same whatever that state holds. *)
Theorem hooks_pass_through_when_disabled
    specifier context nextResolve u lcontext nextLoad :
  agent proc = false \/ isSupportedVersion proc = false ->
  (forall st,
     resolve specifier context nextResolve st
     = (nextResolve specifier context, st) /\
     load u lcontext nextLoad st = (nextLoad u lcontext, st)) /\
  (forall st st',
     fst (resolve specifier context nextResolve st)
     = fst (resolve specifier context nextResolve st') /\
     fst (load u lcontext nextLoad st) = fst (load u lcontext nextLoad st')).
Proof.
  intros H.
  assert (Hr : forall st, resolve specifier context nextResolve st
                          = (nextResolve specifier context, st)).
  { intros st. apply resolve_guarded. tauto. }
  assert (Hl : forall st, load u lcontext nextLoad st
                          = (nextLoad u lcontext, st)).
  { intros st. by apply load_guarded. }
  split.
  - intros st. by rewrite Hr, Hl.
  - intros st st'. by rewrite !Hr, !Hl.
Qed.

(** ** C3 *)

Lemma count_char_export_binding c name :
  count_char c name = 0 ->
  count_char c (export_binding name)
  = count_char c (export_binding EmptyString).
Proof.
  intros H. unfold export_binding.
  rewrite !count_char_append, !H. simpl. lia.
Qed.

Lemma count_char_export_bindings c (props : list string) :
  Forall (fun name => count_char c name = 0) props ->
  sum_list (map (count_char c) (map export_binding props))
  = length props * count_char c (export_binding EmptyString).
Proof.
  induction 1 as [|name props Hname _ IH]; [done|].
  cbn [map sum_list length].
  rewrite (count_char_export_binding c name Hname), IH.
  unfold id. lia.
Qed.

(** The rewritten source holds the two imports, the wrapping call and the
    binding of every export name. *)
Lemma rewritten_source_includes u specifier trimmedUrl props :
  let source := rewritten_source esmShimPath_href u specifier trimmedUrl props in
  includes source (import_shim_line esmShimPath_href) = true /\
  includes source (import_original_line u) = true /\
  includes source (wrap_line specifier trimmedUrl) = true /\
  (forall name, name ∈ props -> includes source (export_binding name) = true).
Proof.
  unfold rewritten_source. repeat split.
  - do 2 apply includes_later. apply includes_here.
  - do 5 apply includes_later. apply includes_here.
  - do 8 apply includes_later. apply includes_here.
  - intros name Hname. do 11 apply includes_later.
    apply includes_earlier, includes_concat.
    apply list_elem_of_fmap. by exists name.
Qed.

(** One opening brace per export name, when no interpolated text brings
    its own. *)
Lemma rewritten_source_braces u specifier trimmedUrl props :
  Forall (fun text => count_char open_brace text = 0)
         ([esmShimPath_href; u; specifier; trimmedUrl] ++ props) ->
  count_char open_brace (rewritten_source esmShimPath_href u specifier trimmedUrl props)
  = length props.
Proof.
  intros H. apply Forall_app in H as [H Hprops].
  apply Forall_cons in H as [Hshim H].
  apply Forall_cons in H as [Hu H].
  apply Forall_cons in H as [Hspec H].
  apply Forall_cons in H as [Hpath _].
  unfold rewritten_source, import_shim_line, import_original_line, wrap_line.
  rewrite !count_char_append, count_char_concat by done.
  rewrite (count_char_export_bindings _ _ Hprops).
  rewrite Hshim, Hu, Hspec, Hpath.
  change (count_char open_brace (export_binding EmptyString)) with 1.
  simpl. lia.
Qed.




(** ** C8 *)

(** A recorded URL makes [resolve] skip its work: no record is written and
    nothing is posted. *)
Lemma resolve_skips_recorded specifier context nextResolve st rm :
  nextResolve specifier context = Returned rm ->
  is_Some (registeredSpecifiers st !! url rm) ->
  snd (resolve specifier context nextResolve st) = st.
Proof.
  intros Hn [seen Hseen].
  destruct (guard_cases context) as [Hg | (Ha & Hv & Hl)].
  { by rewrite resolve_guarded. }
  rewrite (resolve_active _ _ _ _ rm) by done. rewrite Hseen.
  by destruct (fileURLToPath (url rm)).
Qed.

(** Records are never dropped or overwritten. *)
Lemma resolve_keeps_records specifier context nextResolve st u seen :
  registeredSpecifiers st !! u = Some seen ->
  registeredSpecifiers (snd (resolve specifier context nextResolve st)) !! u
  = Some seen.
Proof.
  intros Hseen.
  destruct (guard_cases context) as [Hg | (Ha & Hv & Hl)].
  { by rewrite resolve_guarded. }
  destruct (nextResolve specifier context) as [rm|e] eqn:Hn.
  2: { by rewrite (resolve_next_threw _ _ _ _ e). }
  rewrite (resolve_active _ _ _ _ rm) by done.
  destruct (registeredSpecifiers st !! url rm) eqn:Hrm.
  { by destruct (fileURLToPath (url rm)). }
  repeat (case_match; simpl; try done).
  rewrite lookup_insert_ne; [done|]. congruence.
Qed.

(** Running [resolve] again on the same input leaves the record table as
    the first run left it. *)
Lemma resolve_again_same_records specifier context nextResolve st :
  let st1 := snd (resolve specifier context nextResolve st) in
  registeredSpecifiers (snd (resolve specifier context nextResolve st1))
  = registeredSpecifiers st1.
Proof.
  intros st1. subst st1.
  destruct (guard_cases context) as [Hg | (Ha & Hv & Hl)].
  { by rewrite !resolve_guarded. }
  destruct (nextResolve specifier context) as [rm|e] eqn:Hn.
  2: { by rewrite !(resolve_next_threw _ _ _ _ e). }
  rewrite (resolve_active _ _ _ st rm) by done.
  destruct (registeredSpecifiers st !! url rm) eqn:Hrm.
  { destruct (fileURLToPath (url rm)) eqn:Hp; simpl;
      rewrite (resolve_active _ _ _ st rm) by done;
      by rewrite Hrm, Hp. }
  case_bool_decide as Hmod.
  { destruct (Registry.truthy _) eqn:Ht; simpl.
    - rewrite resolve_skips_recorded with (rm := rm); [done | done |].
      simpl. rewrite lookup_insert_eq. by eexists.
    - rewrite (resolve_active _ _ _ st rm) by done.
      rewrite Hrm. rewrite bool_decide_eq_true_2 by done. by rewrite Ht. }
  case_bool_decide as Hcjs.
  2: { simpl. rewrite (resolve_active _ _ _ st rm) by done.
       rewrite Hrm. by rewrite !bool_decide_eq_false_2 by done. }
  destruct (fileURLToPath (url rm)) as [path|e] eqn:Hp; simpl.
  2: { rewrite (resolve_active _ _ _ st rm) by done.
       rewrite Hrm. rewrite bool_decide_eq_false_2 by done.
       rewrite bool_decide_eq_true_2 by done. by rewrite Hp. }
  destruct (preloadPort st) as [pending|] eqn:Hport; simpl.
  - rewrite (resolve_active _ _ _ _ rm) by done. simpl.
    rewrite Hrm. rewrite bool_decide_eq_false_2 by done.
    rewrite bool_decide_eq_true_2 by done. by rewrite Hp.
  - rewrite (resolve_active _ _ _ st rm) by done.
    rewrite Hrm. rewrite bool_decide_eq_false_2 by done.
    rewrite bool_decide_eq_true_2 by done. by rewrite Hp, Hport.
Qed.

(** C8 (amended): take two runs of [resolve], one after the other, on
    inputs whose next resolver yields the same URL. A URL recorded as
    instrumented by the first run is still instrumented after the second,
    with the same record; a URL already in the record table makes a run
    skip its work (the state is untouched: nothing recorded, nothing
    posted); and running the same input twice gives the URL the same
    classification after the second run as after the first. A URL that the
    first input left without a record may get one from a different second
    input. *)
Theorem resolve_twice_same_classification
    specifier1 context1 nextResolve1 specifier2 context2 nextResolve2 st rm1 rm2 :
  nextResolve1 specifier1 context1 = Returned rm1 ->
  nextResolve2 specifier2 context2 = Returned rm2 ->
  url rm2 = url rm1 ->
  let u := url rm1 in
  let st1 := snd (resolve specifier1 context1 nextResolve1 st) in
  let st2 := snd (resolve specifier2 context2 nextResolve2 st1) in
  (has_instrumentation st1 u = true ->
   has_instrumentation st2 u = true /\
   registeredSpecifiers st2 !! u = registeredSpecifiers st1 !! u) /\
  (forall st0, is_Some (registeredSpecifiers st0 !! u) ->
     snd (resolve specifier2 context2 nextResolve2 st0) = st0) /\
  (is_Some (registeredSpecifiers st1 !! u) -> st2 = st1) /\
  has_instrumentation (snd (resolve specifier1 context1 nextResolve1 st1)) u
  = has_instrumentation st1 u.
Proof.
  intros Hn1 Hn2 Hurl u st1 st2.
  assert (Hskip : forall st0, is_Some (registeredSpecifiers st0 !! u) ->
                    snd (resolve specifier2 context2 nextResolve2 st0) = st0).
  { intros st0 Hsome. apply resolve_skips_recorded with (rm := rm2); [done|].
    by rewrite Hurl. }
  split; [|split; [|split]].
  - intros Hinstr.
    assert (Hsame : st2 = st1).
    { apply Hskip. unfold has_instrumentation in Hinstr.
      destruct (registeredSpecifiers st1 !! u); [by eexists | done]. }
    by rewrite Hsame.
  - exact Hskip.
  - intros Hsome. by apply Hskip.
  - pose proof (resolve_again_same_records specifier1 context1 nextResolve1 st)
      as Hagain.
    cbv zeta in Hagain. unfold has_instrumentation, st1. by rewrite Hagain.
Qed.

End Hooks.

(** ** The hooks at work on the sample loader *)

Import Samples.

Local Abbreviation sample_resolve :=
  (resolve node18 instrumentation_name file_url_to_path).
Local Abbreviation sample_load :=
  (load node18 file_url_to_path shim_href import_export_names).

(** Before [globalPreload] there is no port to post on: resolving a
    CommonJS module raises. *)
Lemma resolve_before_globalPreload :
  fst (sample_resolve "legacy-db" app_context next_resolve loaded)
  = Threw (TypeError "Cannot read properties of undefined (reading 'postMessage')").
Proof. reflexivity. Qed.

(** C1, as stated, fails: ['legacy-db'] resolves to a module of the
    live-mutation format, its URL has no record, the registry holds a
    descriptor under its name, and yet [resolve] stores no record for the
    URL (it posts a message instead). *)
Lemma resolve_live_mutation_module_not_recorded :
  let after := sample_resolve "legacy-db" app_context next_resolve started in
  next_resolve "legacy-db" app_context = Returned legacy_db_module /\
  format legacy_db_module = Some live_mutation_format /\
  registeredSpecifiers started !! legacy_db_url = None /\
  Registry.get_property (registeredInstrumentations started)
    (instrumentation_name "legacy-db") = Registry.Array [legacy_db] /\
  fst after = Returned legacy_db_module /\
  registeredSpecifiers (snd after) !! legacy_db_url = None /\
  has_instrumentation (snd after) legacy_db_url = false.
Proof. vm_compute. by repeat split. Qed.

Lemma resolve_records_rewrite_required_module_witness :
  exists st',
    sample_resolve "db-client" app_context next_resolve started
    = (Returned db_client_module, st') /\
    registeredSpecifiers st' !! url db_client_module
    = Some {| specifier := "db-client"; hasNrInstrumentation := true |} /\
    has_instrumentation st' (url db_client_module) = true /\
    (forall u, u ≠ url db_client_module ->
       registeredSpecifiers st' !! u = registeredSpecifiers started !! u) /\
    registeredInstrumentations st' = registeredInstrumentations started /\
    preloadPort st' = preloadPort started.
Proof.
  apply (resolve_records_rewrite_required_module node18 instrumentation_name
           file_url_to_path "db-client" app_context next_resolve started
           db_client_module db_client []);
    reflexivity.
Defined.

(** C2, as stated, fails: ['db-client'] resolves to a module of the
    rewrite-required format, its URL has no record, and [resolve] posts
    nothing on the port. *)
Lemma resolve_rewrite_required_module_not_notified :
  let after := sample_resolve "db-client" app_context next_resolve started in
  next_resolve "db-client" app_context = Returned db_client_module /\
  format db_client_module = Some rewrite_required_format /\
  registeredSpecifiers started !! db_client_url = None /\
  preloadPort started = Some [] /\
  fst after = Returned db_client_module /\
  preloadPort (snd after) = Some [].
Proof. vm_compute. by repeat split. Qed.

Lemma resolve_notifies_for_live_mutation_module_witness :
  exists st',
    sample_resolve "legacy-db" app_context next_resolve started
    = (Returned legacy_db_module, st') /\
    preloadPort st'
    = Some ([] ++ [{| d_specifier := "legacy-db";
                      d_resolvedModule := legacy_db_module;
                      d_filePath := "/app/node_modules/legacy-db/index.js" |}]) /\
    registeredInstrumentations st' = registeredInstrumentations started /\
    registeredSpecifiers st' = registeredSpecifiers started.
Proof.
  apply (resolve_notifies_for_live_mutation_module node18 instrumentation_name
           file_url_to_path "legacy-db" app_context next_resolve started
           legacy_db_module "/app/node_modules/legacy-db/index.js" []);
    reflexivity.
Defined.


(** C4, as stated, fails: before [globalPreload] the next resolver returns
    the record of ['legacy-db'] and [resolve] raises instead of returning
    it. *)
Lemma resolve_raises_though_next_returned :
  next_resolve "legacy-db" app_context = Returned legacy_db_module /\
  sample_resolve "legacy-db" app_context next_resolve loaded
  = (Threw (TypeError
       "Cannot read properties of undefined (reading 'postMessage')"), loaded).
Proof. split; reflexivity. Qed.

(** C8, as stated, fails: two inputs that resolve to the URL of
    ['db-client'] leave it unclassified after the first run and
    instrumented after the second, be it the same specifier asked for by
    the loader's own file and then by the application, or an unregistered
    alias and then the registered name. *)
Lemma resolve_second_input_changes_classification :
  let own_request :=
    snd (sample_resolve "db-client" (Some Scenarios.loader_parent)
           next_resolve started) in
  let alias_request :=
    snd (sample_resolve "./db.mjs" app_context next_resolve started) in
  next_resolve "db-client" (Some Scenarios.loader_parent)
  = Returned db_client_module /\
  next_resolve "./db.mjs" app_context = Returned db_client_module /\
  next_resolve "db-client" app_context = Returned db_client_module /\
  has_instrumentation own_request db_client_url = false /\
  has_instrumentation
    (snd (sample_resolve "db-client" app_context next_resolve own_request))
    db_client_url = true /\
  has_instrumentation alias_request db_client_url = false /\
  has_instrumentation
    (snd (sample_resolve "db-client" app_context next_resolve alias_request))
    db_client_url = true.
Proof. vm_compute. by repeat split. Qed.

(** With the agent on Node 14, or without an agent, the sample hooks only
    pass the call on. *)
Lemma hooks_pass_through_when_disabled_witness :
  (forall st,
     resolve node14 instrumentation_name file_url_to_path
       "db-client" app_context next_resolve st
     = (next_resolve "db-client" app_context, st) /\
     load node14 file_url_to_path shim_href import_export_names
       db_client_url module_load_context next_load st
     = (next_load db_client_url module_load_context, st)) /\
  (forall st,
     resolve no_agent instrumentation_name file_url_to_path
       "db-client" app_context next_resolve st
     = (next_resolve "db-client" app_context, st) /\
     load no_agent file_url_to_path shim_href import_export_names
       db_client_url module_load_context next_load st
     = (next_load db_client_url module_load_context, st)).
Proof.
  split.
  - apply (hooks_pass_through_when_disabled node14 instrumentation_name
             file_url_to_path shim_href import_export_names).
    right. reflexivity.
  - apply (hooks_pass_through_when_disabled no_agent instrumentation_name
             file_url_to_path shim_href import_export_names).
    left. reflexivity.
Defined.

(** ['./db.mjs'] and ['db-client'] name the same module: the record made
    for the second is kept when the first is resolved after it. *)
Lemma resolve_twice_same_classification_witness :
  let st1 := snd (sample_resolve "db-client" app_context next_resolve started) in
  let st2 := snd (sample_resolve "./db.mjs" app_context next_resolve st1) in
  has_instrumentation st1 db_client_url = true /\
  has_instrumentation st2 db_client_url = true /\
  st2 = st1.
Proof.
  pose proof (resolve_twice_same_classification node18 instrumentation_name
                file_url_to_path "db-client" app_context next_resolve
                "./db.mjs" app_context next_resolve started
                db_client_module db_client_module eq_refl eq_refl eq_refl)
    as (Hkept & _ & Hskip & _).
  cbv zeta in *.
  assert (H1 : has_instrumentation
                 (snd (sample_resolve "db-client" app_context next_resolve started))
                 db_client_url = true) by reflexivity.
  split; [exact H1|]. split.
  - exact (proj1 (Hkept H1)).
  - apply Hskip. unfold has_instrumentation in H1. simpl in H1.
    destruct (registeredSpecifiers _ !! _); [by eexists | discriminate].
Defined.

End EsmLoaderFacts.

(** * More on the registration table *)

Module RegistryRuns.

Import Registry MainThread RegistryFacts.

Lemma registerAll_cons o calls p :
  registerAll (o :: calls) p
  = registerAll calls (snd (registerInstrumentation o p)).
Proof. reflexivity. Qed.

Lemma registerAll_app calls calls' p :
  registerAll (calls ++ calls') p = registerAll calls' (registerAll calls p).
Proof. unfold registerAll. apply foldl_app. Qed.

(** What one call adds under a name. *)
Lemma registerInstrumentation_descriptors o p name :
  proto p = NullPrototype ->
  descriptors (get_property (snd (registerInstrumentation o p)) name)
  = descriptors (get_property p name)
    ++ match registered_under name o with Some d => [d] | None => [] end.
Proof.
  intros Hp. destruct (hasValidRegisterOptions o) eqn:Hv.
  - destruct o as [d|]; [|done].
    rewrite (registerInstrumentation_valid p d Hp Hv).
    unfold registered_under. rewrite Hv. cbn [snd andb].
    destruct (hasValidRegisterOptions_true d Hv) as (c & s & Hm).
    rewrite Hm. cbn [property_key]. case_bool_decide as Hname.
    + injection Hname as <-. by rewrite get_set_property_eq.
    + rewrite get_set_property_ne by congruence. by rewrite app_nil_r.
  - rewrite (registerInstrumentation_invalid o p Hv). cbn [snd].
    unfold registered_under.
    destruct o as [d|]; [|by rewrite app_nil_r].
    rewrite Hv. cbn [andb]. by rewrite app_nil_r.
Qed.

Lemma registerAll_descriptors calls name : forall p,
  proto p = NullPrototype ->
  descriptors (get_property (registerAll calls p) name)
  = descriptors (get_property p name) ++ omap (registered_under name) calls.
Proof.
  induction calls as [|o calls IH]; intros p Hp.
  - simpl. by rewrite app_nil_r.
  - rewrite registerAll_cons, IH by (by rewrite registerInstrumentation_proto).
    rewrite (registerInstrumentation_descriptors o p name Hp).
    rewrite <- app_assoc. f_equal. simpl.
    by destruct (registered_under name o).
Qed.

Lemma registerInstrumentation_well_formed o p :
  well_formed p -> well_formed (snd (registerInstrumentation o p)).
Proof.
  intros [Hp Hwf]. destruct (hasValidRegisterOptions o) eqn:Hv.
  2: { by rewrite (registerInstrumentation_invalid o p Hv). }
  destruct o as [d|]; [|done].
  rewrite (registerInstrumentation_valid p d Hp Hv). simpl.
  destruct (hasValidRegisterOptions_true d Hv) as (c & s & Hm).
  rewrite Hm. simpl. split; [done|].
  intros k l. simpl. destruct (decide (k = String c s)) as [->|Hk].
  - rewrite lookup_insert_eq. intros [= <-]. split.
    { by destruct (descriptors _). }
    intros d' Hd'. apply elem_of_app in Hd' as [Hd'|Hd'].
    + unfold get_property in Hd'.
      destruct (own p !! String c s) as [l0|] eqn:Hl0.
      * by apply (Hwf _ _ Hl0).
      * rewrite Hp in Hd'. by apply elem_of_nil in Hd'.
    + apply list_elem_of_singleton in Hd' as ->. by split.
  - rewrite lookup_insert_ne by done. apply Hwf.
Qed.

Lemma pkgs_well_formed : well_formed pkgs.
Proof.
  split; [done|]. intros k l Hl.
  unfold pkgs, Object_create_null in Hl. simpl in Hl.
  by rewrite lookup_empty in Hl.
Qed.

Lemma registerAll_preserves_well_formed calls : forall p,
  well_formed p -> well_formed (registerAll calls p).
Proof.
  induction calls as [|o calls IH]; intros p Hwf; [done|].
  rewrite registerAll_cons. by apply IH, registerInstrumentation_well_formed.
Qed.

Lemma get_property_pkgs name : get_property pkgs name = Undefined.
Proof.
  unfold get_property, pkgs, Object_create_null. simpl.
  by rewrite lookup_empty.
Qed.

(** On a well-formed table a read is undefined or a non-empty array. *)
Lemma well_formed_read p name :
  well_formed p ->
  get_property p name = Undefined \/
  exists d l, get_property p name = Array (d :: l).
Proof.
  intros [Hp Hwf]. unfold get_property. rewrite Hp.
  destruct (own p !! name) as [[|d l]|] eqn:Hl; eauto.
  by destruct (Hwf _ _ Hl) as [Hne _].
Qed.

(** X1. After any run of calls on [pkgs], the descriptors read under a name
    are the valid calls made with that module name, in the order of the
    calls, and nothing else; the read is undefined exactly when there was
    no such call. *)
Theorem registerAll_reads_registrations_in_order
    (calls : list (option opts)) (name : string) :
  descriptors (get_property (registerAll calls pkgs) name)
  = omap (registered_under name) calls /\
  (get_property (registerAll calls pkgs) name = Undefined <->
   omap (registered_under name) calls = []) /\
  (truthy (get_property (registerAll calls pkgs) name) = true <->
   exists d, d ∈ omap (registered_under name) calls).
Proof.
  pose proof (registerAll_descriptors calls name pkgs eq_refl) as Hd.
  rewrite get_property_pkgs in Hd. cbn [descriptors app] in Hd.
  destruct (well_formed_read (registerAll calls pkgs) name) as [Hu|(d & l & Ha)].
  { by apply registerAll_preserves_well_formed, pkgs_well_formed. }
  - rewrite Hu in *. simpl in *. rewrite <- Hd. repeat split; try done.
    intros [d Hd']. by apply elem_of_nil in Hd'.
  - rewrite Ha in *. simpl in *. rewrite <- Hd. repeat split; try done.
    intros _. exists d. by left.
Qed.

(** X2. Every table reached from [pkgs] by registration calls is without a
    prototype, holds no empty array, and files every descriptor, a valid
    one, under its own module name. *)
Theorem registerAll_well_formed (calls : list (option opts)) :
  well_formed (registerAll calls pkgs).
Proof.
  generalize pkgs pkgs_well_formed.
  induction calls as [|o calls IH]; intros p Hwf; [exact Hwf|].
  rewrite registerAll_cons. apply IH.
  by apply registerInstrumentation_well_formed.
Qed.

(** X3. On a table without a prototype [registerInstrumentation] never
    raises, whatever it is called with, and the table stays without a
    prototype; so no call in a run on [pkgs] raises. *)
Theorem registerInstrumentation_never_raises (o : option opts) (p : object) :
  proto p = NullPrototype ->
  fst (registerInstrumentation o p) = Returned tt /\
  proto (snd (registerInstrumentation o p)) = NullPrototype /\
  (forall calls,
     fst (registerInstrumentation o (registerAll calls p)) = Returned tt).
Proof.
  assert (H : forall q, proto q = NullPrototype ->
                fst (registerInstrumentation o q) = Returned tt).
  { intros q Hq. destruct (hasValidRegisterOptions o) eqn:Hv.
    - destruct o as [d|]; [|done].
      by rewrite (registerInstrumentation_valid q d Hq Hv).
    - by rewrite (registerInstrumentation_invalid o q Hv). }
  intros Hp. split; [by apply H|]. split.
  - by rewrite registerInstrumentation_proto.
  - intros calls. apply H. by rewrite registerAll_proto.
Qed.

Lemma registerInstrumentation_never_raises_witness :
  fst (registerInstrumentation (Some Samples.to_string_instrumentation)
         Samples.pkgs_with_db_client) = Returned tt.
Proof.
  exact (proj1 (registerInstrumentation_never_raises
                  (Some Samples.to_string_instrumentation)
                  Samples.pkgs_with_db_client eq_refl)).
Defined.

(** X4. Registrations under different module names do not interfere: in
    either order they leave the same table. *)
Theorem registerInstrumentation_commutes (d1 d2 : opts) (p : object) :
  proto p = NullPrototype ->
  hasValidRegisterOptions (Some d1) = true ->
  hasValidRegisterOptions (Some d2) = true ->
  moduleName d1 <> moduleName d2 ->
  snd (registerInstrumentation (Some d2)
         (snd (registerInstrumentation (Some d1) p)))
  = snd (registerInstrumentation (Some d1)
           (snd (registerInstrumentation (Some d2) p))).
Proof.
  intros Hp Hv1 Hv2 Hne.
  destruct (hasValidRegisterOptions_true d1 Hv1) as (c1 & s1 & Hm1).
  destruct (hasValidRegisterOptions_true d2 Hv2) as (c2 & s2 & Hm2).
  assert (Hk : String c1 s1 <> String c2 s2) by congruence.
  rewrite (registerInstrumentation_valid p d1 Hp Hv1).
  rewrite (registerInstrumentation_valid p d2 Hp Hv2). simpl.
  rewrite !registerInstrumentation_valid by done. simpl.
  rewrite Hm1, Hm2. simpl.
  rewrite !get_set_property_ne by done.
  unfold set_property. simpl. f_equal.
  by apply insert_insert_ne.
Qed.

Lemma registerInstrumentation_commutes_witness :
  snd (registerInstrumentation (Some Samples.legacy_db)
         (snd (registerInstrumentation (Some Samples.db_client) pkgs)))
  = snd (registerInstrumentation (Some Samples.db_client)
           (snd (registerInstrumentation (Some Samples.legacy_db) pkgs))).
Proof.
  apply registerInstrumentation_commutes; [reflexivity .. | discriminate].
Defined.

End RegistryRuns.

(** * More on the loader hooks *)

Module EsmLoaderMore.

Import EsmLoader EsmLoaderFacts.

(** A release candidate of 16.12.0 is below 16.12.0. *)
Lemma release_candidate_unsupported :
  isSupportedVersion Scenarios.node16_rc = false /\
  isSupportedVersion Scenarios.node16 = true.
Proof. split; reflexivity. Qed.

Lemma isFromEsmLoader_parent c pre post :
  parentURL c = Some (pre +:+ "newrelic/esm-loader.mjs" +:+ post) ->
  isFromEsmLoader (Some c) = true.
Proof.
  intros H. unfold isFromEsmLoader. rewrite H.
  pose proof (includes_later pre _ _
                (includes_here "newrelic/esm-loader.mjs" post)) as Hinc.
  by destruct (pre +:+ "newrelic/esm-loader.mjs" +:+ post).
Qed.

Section Hooks.

Variable proc : process.
Variable getInstrumentationNameFromModuleName : string -> string.
Variable fileURLToPath : string -> outcome string.
Variable esmShimPath_href : string.
Variable import_keys : string -> outcome (list string).

Local Abbreviation resolve := (resolve proc getInstrumentationNameFromModuleName fileURLToPath).
Local Abbreviation load := (load proc fileURLToPath esmShimPath_href import_keys).

(** Past the guard of [load]. *)
Lemma load_active u context nextLoad st :
  agent proc = true -> isSupportedVersion proc = true ->
  load u context nextLoad st =
    match registeredSpecifiers st !! u with
    | None => (nextLoad u context, st)
    | Some seen =>
        if hasNrInstrumentation seen then
          match import_keys u with
          | Threw e => (Threw e, st)
          | Returned props =>
              match fileURLToPath u with
              | Threw e => (Threw e, st)
              | Returned trimmedUrl =>
                  (Returned
                     {| lr_format := Some "module";
                        lr_source :=
                          Some (rewritten_source esmShimPath_href u
                                  (specifier seen) trimmedUrl props);
                        lr_shortCircuit := Some true |}, st)
              end
          end
        else (nextLoad u context, st)
    end.
Proof.
  intros Ha Hv. unfold EsmLoader.load, wrapEsmSource. rewrite Ha, Hv.
  run_hook. destruct (registeredSpecifiers st !! u) as [seen|]; [|done].
  destruct (hasNrInstrumentation seen); simpl; [|done].
  destruct (import_keys u); [|done]. by destruct (fileURLToPath u).
Qed.

Lemma load_cases :
  (agent proc = false \/ isSupportedVersion proc = false) \/
  (agent proc = true /\ isSupportedVersion proc = true).
Proof. destruct (agent proc), (isSupportedVersion proc); auto. Qed.

(** X6. A request whose parent is the loader's own file goes straight to
    the next resolver, also with the agent present and the runtime
    supported: the result is the chain's and the state is untouched. *)
Theorem resolve_from_loader_passes_through
    specifier c pre post nextResolve st :
  parentURL c = Some (pre +:+ "newrelic/esm-loader.mjs" +:+ post) ->
  resolve specifier (Some c) nextResolve st
  = (nextResolve specifier (Some c), st).
Proof.
  intros H. apply resolve_guarded. right. right.
  by apply (isFromEsmLoader_parent c pre post).
Qed.

(** X7. [resolve] only observes a module it has no use for: with no record
    for the URL, a format other than ['commonjs'], and, for ['module'], no
    registration under the specifier's name, it returns the chain's record
    and leaves the state as it was. *)
Theorem resolve_observes_only specifier context nextResolve st rm :
  nextResolve specifier context = Returned rm ->
  registeredSpecifiers st !! url rm = None ->
  format rm <> Some "commonjs" ->
  (format rm = Some "module" ->
   Registry.get_property (registeredInstrumentations st)
     (getInstrumentationNameFromModuleName specifier) = Registry.Undefined) ->
  resolve specifier context nextResolve st = (Returned rm, st).
Proof.
  intros Hn Hnone Hcjs Hmod.
  destruct (guard_cases proc context) as [Hg | (Ha & Hv & Hl)].
  { by rewrite resolve_guarded, Hn. }
  rewrite (resolve_active _ _ _ _ _ _ _ rm) by done. rewrite Hnone.
  case_bool_decide as Hm.
  - by rewrite (Hmod Hm).
  - by rewrite bool_decide_eq_false_2.
Qed.

(** X8. What [resolve] never does, whatever it is called with: it never
    changes the registration table, never drops or changes a record and
    adds at most one, never loses the port or a pending message and posts
    at most one, and never both records and posts. *)
Theorem resolve_frame specifier context nextResolve st :
  let st' := snd (resolve specifier context nextResolve st) in
  registeredInstrumentations st' = registeredInstrumentations st /\
  registeredSpecifiers st ⊆ registeredSpecifiers st' /\
  size (registeredSpecifiers st') <= S (size (registeredSpecifiers st)) /\
  (preloadPort st = None -> preloadPort st' = None) /\
  (forall pending, preloadPort st = Some pending ->
     preloadPort st' = Some pending \/
     exists d, preloadPort st' = Some (pending ++ [d]) /\
               registeredSpecifiers st' = registeredSpecifiers st).
Proof.
  intros st'. subst st'.
  assert (Hsame : forall o : outcome resolved_module,
    let st' := snd (o, st) in
    registeredInstrumentations st' = registeredInstrumentations st /\
    registeredSpecifiers st ⊆ registeredSpecifiers st' /\
    size (registeredSpecifiers st') <= S (size (registeredSpecifiers st)) /\
    (preloadPort st = None -> preloadPort st' = None) /\
    (forall pending, preloadPort st = Some pending ->
       preloadPort st' = Some pending \/
       exists d, preloadPort st' = Some (pending ++ [d]) /\
                 registeredSpecifiers st' = registeredSpecifiers st)).
  { intros o. simpl. repeat split; try done; [lia | auto]. }
  destruct (guard_cases proc context) as [Hg | (Ha & Hv & Hl)].
  { rewrite resolve_guarded by done. apply Hsame. }
  destruct (nextResolve specifier context) as [rm|e] eqn:Hn.
  2: { rewrite (resolve_next_threw _ _ _ _ _ _ _ e) by done. apply Hsame. }
  rewrite (resolve_active _ _ _ _ _ _ _ rm) by done.
  destruct (registeredSpecifiers st !! url rm) eqn:Hrm.
  { destruct (fileURLToPath (url rm)); apply Hsame. }
  case_bool_decide.
  { destruct (Registry.truthy _); [|apply Hsame]. simpl.
    repeat split; try done.
    - by apply insert_subseteq.
    - by rewrite map_size_insert_None.
    - auto. }
  case_bool_decide; [|apply Hsame].
  destruct (fileURLToPath (url rm)); [|apply Hsame].
  destruct (preloadPort st) as [pending|]; [|apply Hsame]. simpl.
  repeat split; try done; [lia|].
  intros ? [= <-]. right. by eexists.
Qed.

(** X9. Every record [resolve] writes is marked as instrumented: if all
    records are marked before a call, all are marked after it, and then a
    URL is classified as instrumented exactly when it has a record. *)
Theorem resolve_keeps_records_marked specifier context nextResolve st :
  map_Forall (fun _ seen => hasNrInstrumentation seen = true)
    (registeredSpecifiers st) ->
  let st' := snd (resolve specifier context nextResolve st) in
  map_Forall (fun _ seen => hasNrInstrumentation seen = true)
    (registeredSpecifiers st') /\
  (forall u, has_instrumentation st' u = true <->
             is_Some (registeredSpecifiers st' !! u)).
Proof.
  intros Hall st'.
  assert (Hall' : map_Forall (fun _ seen => hasNrInstrumentation seen = true)
                    (registeredSpecifiers st')).
  { subst st'.
    destruct (guard_cases proc context) as [Hg | (Ha & Hv & Hl)].
    { by rewrite resolve_guarded. }
    destruct (nextResolve specifier context) as [rm|e] eqn:Hn.
    2: { by rewrite (resolve_next_threw _ _ _ _ _ _ _ e). }
    rewrite (resolve_active _ _ _ _ _ _ _ rm) by done.
    repeat (case_match; simpl; try done).
    by apply map_Forall_insert_2. }
  split; [exact Hall'|].
  intros u. unfold has_instrumentation.
  destruct (registeredSpecifiers st' !! u) as [seen|] eqn:Hu.
  - rewrite (Hall' u seen Hu). split; [by eexists | done].
  - split; [done | by intros [? ?]].
Qed.

Lemma load_uninstrumented u context nextLoad st :
  has_instrumentation st u = false ->
  load u context nextLoad st = (nextLoad u context, st).
Proof.
  intros Hno. destruct load_cases as [Hg | (Ha & Hv)].
  { by apply load_guarded. }
  rewrite load_active by done. unfold has_instrumentation in Hno.
  destruct (registeredSpecifiers st !! u) as [seen|]; [|done].
  by rewrite Hno.
Qed.

(** X10. [load] hands a URL that is not classified as instrumented to the
    next loader, whatever the process: the result is the next loader's and
    the state is untouched. *)
Theorem load_delegates_uninstrumented u context nextLoad st :
  has_instrumentation st u = false ->
  load u context nextLoad st = (nextLoad u context, st).
Proof.
  intros Hno. destruct load_cases as [Hg | (Ha & Hv)].
  { by apply load_guarded. }
  rewrite load_active by done. unfold has_instrumentation in Hno.
  destruct (registeredSpecifiers st !! u) as [seen|]; [|done].
  by rewrite Hno.
Qed.

(** X11. [load] never changes the state: no record, no registration and
    no message is added or removed, on any path. *)
Theorem load_never_changes_state u context nextLoad st :
  snd (load u context nextLoad st) = st.
Proof.
  destruct load_cases as [Hg | (Ha & Hv)].
  { by rewrite load_guarded. }
  rewrite load_active by done.
  repeat (case_match; simpl; try done).
Qed.

(** X12. For a URL classified as instrumented (agent present, runtime
    supported) [load] does not turn to the next loader at all, and an error
    of the import or of the URL conversion comes out of [load] as it is. *)
Theorem load_instrumented_errors u context nextLoad st :
  agent proc = true -> isSupportedVersion proc = true ->
  has_instrumentation st u = true ->
  (forall nextLoad', load u context nextLoad' st = load u context nextLoad st) /\
  (forall e, import_keys u = Threw e ->
     load u context nextLoad st = (Threw e, st)) /\
  (forall props e, import_keys u = Returned props ->
     fileURLToPath u = Threw e ->
     load u context nextLoad st = (Threw e, st)).
Proof.
  intros Ha Hv Hinstr. unfold has_instrumentation in Hinstr.
  destruct (registeredSpecifiers st !! u) as [seen|] eqn:Hu; [|done].
  repeat split.
  - intros nextLoad'. rewrite !load_active by done. by rewrite Hu, Hinstr.
  - intros e He. rewrite load_active by done. by rewrite Hu, Hinstr, He.
  - intros props e Hprops He. rewrite load_active by done.
    by rewrite Hu, Hinstr, Hprops, He.
Qed.

(** X13. Without a port [resolve] cannot post: for a CommonJS module with
    no record it raises a [TypeError] and leaves the state alone; once
    [globalPreload] has handed over a port, the same call returns the
    chain's record and its message is the last one pending on that port. *)
Theorem resolve_needs_port specifier context nextResolve st rm filePath :
  agent proc = true -> isSupportedVersion proc = true ->
  isFromEsmLoader context = false ->
  nextResolve specifier context = Returned rm ->
  registeredSpecifiers st !! url rm = None ->
  format rm = Some "commonjs" ->
  fileURLToPath (url rm) = Returned filePath ->
  (preloadPort st = None ->
   resolve specifier context nextResolve st
   = (Threw (TypeError
        "Cannot read properties of undefined (reading 'postMessage')"), st)) /\
  (forall port,
     let ready := snd (globalPreload port st) in
     fst (resolve specifier context nextResolve ready) = Returned rm /\
     preloadPort (snd (resolve specifier context nextResolve ready))
     = Some (port ++ [{| d_specifier := specifier;
                         d_resolvedModule := rm;
                         d_filePath := filePath |}])).
Proof.
  intros Ha Hv Hl Hn Hnone Hf Hpath. split.
  - intros Hport. rewrite (resolve_active _ _ _ _ _ _ _ rm) by done.
    by rewrite Hnone, Hf, Hpath, Hport.
  - intros port ready. subst ready.
    rewrite (resolve_active _ _ _ _ _ _ _ rm) by done. simpl.
    by rewrite Hnone, Hf, Hpath.
Qed.

(** X14. An error of [fileURLToPath] comes out of [resolve] with the state
    untouched, not only for a CommonJS module but also for a URL that
    already has a record, where the path only goes into a debug message. *)
Theorem resolve_path_error specifier context nextResolve st rm e :
  agent proc = true -> isSupportedVersion proc = true ->
  isFromEsmLoader context = false ->
  nextResolve specifier context = Returned rm ->
  fileURLToPath (url rm) = Threw e ->
  is_Some (registeredSpecifiers st !! url rm) \/ format rm = Some "commonjs" ->
  resolve specifier context nextResolve st = (Threw e, st).
Proof.
  intros Ha Hv Hl Hn He Hcase.
  rewrite (resolve_active _ _ _ _ _ _ _ rm) by done. rewrite He.
  destruct (registeredSpecifiers st !! url rm) eqn:Hrm; [done|].
  destruct Hcase as [[? ?] | Hf]; [done|]. by rewrite Hf.
Qed.

(** X16. Only modules of format ['module'] are ever rewritten: after
    [resolve] has met a URL without a record under any other format, [load]
    of that URL is the next loader's. *)
Theorem resolve_then_load_delegates
    specifier context nextResolve lcontext nextLoad st rm :
  nextResolve specifier context = Returned rm ->
  registeredSpecifiers st !! url rm = None ->
  format rm <> Some "module" ->
  let st' := snd (resolve specifier context nextResolve st) in
  load (url rm) lcontext nextLoad st' = (nextLoad (url rm) lcontext, st').
Proof.
  intros Hn Hnone Hf st'. apply load_uninstrumented.
  unfold has_instrumentation. subst st'.
  destruct (guard_cases proc context) as [Hg | (Ha & Hv & Hl)].
  { rewrite resolve_guarded by done. simpl. by rewrite Hnone. }
  rewrite (resolve_active _ _ _ _ _ _ _ rm) by done. rewrite Hnone.
  rewrite bool_decide_eq_false_2 by done.
  case_bool_decide;
    [destruct (fileURLToPath (url rm)); [destruct (preloadPort st)|]|];
    simpl; by rewrite Hnone.
Qed.

(** X17. The first specifier wins: once a URL has a record, no later
    [resolve], through whatever specifier, changes what [load] returns for
    that URL. *)
Theorem resolve_keeps_load_result
    specifier context nextResolve u lcontext nextLoad st :
  is_Some (registeredSpecifiers st !! u) ->
  fst (load u lcontext nextLoad (snd (resolve specifier context nextResolve st)))
  = fst (load u lcontext nextLoad st).
Proof.
  intros [seen Hseen].
  pose proof (resolve_keeps_records proc getInstrumentationNameFromModuleName
                fileURLToPath specifier context nextResolve st u seen Hseen)
    as Hkept.
  destruct load_cases as [Hg | (Ha & Hv)].
  { by rewrite !load_guarded. }
  rewrite !load_active by done. rewrite Hkept, Hseen.
  repeat (case_match; simpl; try done).
Qed.

End Hooks.

End EsmLoaderMore.

(** * The main-thread handler at work *)

Module MainThreadFacts.

Import Registry MainThread RegistryFacts.

Lemma retarget_idempotent filePath specifier d :
  retarget filePath specifier (retarget filePath specifier d)
  = retarget filePath specifier d.
Proof. reflexivity. Qed.

(** A retargeted descriptor passes validation when it has a hook and the
    path is not empty. *)
Lemma retarget_valid c s specifier d :
  truthy_hook (onRequire d) || truthy_hook (onResolved d) = true ->
  hasValidRegisterOptions (Some (retarget (String c s) specifier d)) = true.
Proof.
  intros H. unfold hasValidRegisterOptions, retarget. simpl.
  by destruct (truthy_hook (onRequire d)), (truthy_hook (onResolved d)).
Qed.

Lemma retarget_keeps_hooks filePath specifier (l : list opts) :
  Forall (fun d => truthy_hook (onRequire d) || truthy_hook (onResolved d) = true) l ->
  Forall (fun d => truthy_hook (onRequire d) || truthy_hook (onResolved d) = true)
         (map (retarget filePath specifier) l).
Proof. intros H. apply Forall_fmap. by eapply Forall_impl. Qed.

Lemma get_property_own p k :
  proto p = NullPrototype ->
  get_property p k = match own p !! k with Some l => Array l | None => Undefined end.
Proof. intros Hp. unfold get_property. by rewrite Hp. Qed.

Section Handler.

Variable getInstrumentationNameFromModuleName : string -> string.

Local Abbreviation onmessage := (onmessage getInstrumentationNameFromModuleName).

(** The loop, from any point on: the entries already visited are
    retargeted, the others are as they were. *)
Lemma forEach_retargets name c s specifier (rest : list opts) :
  forall (visited : list opts) (reg : object),
  proto reg = NullPrototype ->
  name <> String c s ->
  own reg !! name = Some (map (retarget (String c s) specifier) visited ++ rest) ->
  Forall (fun d => truthy_hook (onRequire d) || truthy_hook (onResolved d) = true) rest ->
  exists reg',
    forEach name (String c s) specifier (seq (length visited) (length rest)) reg
    = (Returned tt, reg') /\
    proto reg' = NullPrototype /\
    own reg' !! name
    = Some (map (retarget (String c s) specifier) (visited ++ rest)) /\
    descriptors (get_property reg' (String c s))
    = descriptors (get_property reg (String c s))
      ++ map (retarget (String c s) specifier) rest /\
    (forall k, k <> name -> k <> String c s -> own reg' !! k = own reg !! k).
Proof.
  induction rest as [|d rest IH]; intros visited reg Hp Hne Hname Hhooks.
  - exists reg. simpl. rewrite !app_nil_r in *. by repeat split.
  - apply Forall_cons in Hhooks as [Hd Hrest].
    cbn [length seq forEach]. unfold forEach_callback.
    rewrite Hname. cbn [mbind option_bind].
    rewrite list_lookup_middle by (by rewrite length_map).
    set (copy := retarget (String c s) specifier d).
    set (reg1 := assign_entry reg name (length visited) copy).
    assert (Hp1 : proto reg1 = NullPrototype) by done.
    rewrite (registerInstrumentation_valid reg1 copy Hp1 (retarget_valid c s specifier d Hd)).
    cbn [moduleName copy retarget property_key].
    set (reg2 := set_property reg1 (String c s) _).
    assert (Hname2 : own reg2 !! name
              = Some (map (retarget (String c s) specifier) (visited ++ [d]) ++ rest)).
    { unfold reg2, set_property, reg1, assign_entry. simpl.
      rewrite lookup_insert_ne by done.
      rewrite lookup_alter_eq, Hname. simpl. f_equal.
      rewrite insert_app_r_alt by (by rewrite length_map).
      rewrite length_map, Nat.sub_diag. simpl.
      by rewrite map_app, <- app_assoc. }
    destruct (IH (visited ++ [d]) reg2 Hp1 Hne Hname2 Hrest)
      as (reg' & Hrun & Hp' & Hname' & Hpath' & Hother').
    rewrite length_app, Nat.add_1_r in Hrun.
    exists reg'. split; [exact Hrun|]. split; [exact Hp'|]. split.
    { by rewrite <- app_assoc in Hname'. }
    split.
    + rewrite Hpath'. unfold reg2. rewrite get_set_property_eq.
      cbn [descriptors]. rewrite <- app_assoc. f_equal.
      rewrite !get_property_own by done. unfold reg1, assign_entry. simpl.
      by rewrite lookup_alter_ne.
    + intros k Hk1 Hk2. rewrite Hother' by done.
      unfold reg2, set_property, reg1, assign_entry. simpl.
      rewrite lookup_insert_ne by done. by rewrite lookup_alter_ne.
Qed.

(** A message for a specifier without registrations changes nothing. *)
Lemma onmessage_unregistered details reg :
  get_property reg (getInstrumentationNameFromModuleName (EsmLoader.d_specifier details))
  = Undefined ->
  onmessage details reg = (Returned tt, reg).
Proof. intros H. unfold MainThread.onmessage. by rewrite H. Qed.

(** What a delivery does to the table. *)
Lemma onmessage_effect details reg l c s :
  let specifier := EsmLoader.d_specifier details in
  let name := getInstrumentationNameFromModuleName specifier in
  proto reg = NullPrototype ->
  get_property reg name = Array l ->
  Forall (fun d => truthy_hook (onRequire d) || truthy_hook (onResolved d) = true) l ->
  EsmLoader.d_filePath details = String c s ->
  name <> String c s ->
  exists reg',
    onmessage details reg = (Returned tt, reg') /\
    proto reg' = NullPrototype /\
    get_property reg' name = Array (map (retarget (String c s) specifier) l) /\
    descriptors (get_property reg' (String c s))
    = descriptors (get_property reg (String c s))
      ++ map (retarget (String c s) specifier) l /\
    (forall k, k <> name -> k <> String c s ->
       get_property reg' k = get_property reg k).
Proof.
  intros specifier name Hp Hl Hhooks Hpath Hne.
  assert (Hown : own reg !! name = Some l).
  { rewrite get_property_own in Hl by done.
    by destruct (own reg !! name) as [l0|]; [injection Hl as -> |]. }
  destruct (forEach_retargets name c s specifier l [] reg Hp Hne Hown Hhooks)
    as (reg' & Hrun & Hp' & Hname' & Hpath' & Hother').
  exists reg'. unfold MainThread.onmessage. fold specifier. fold name.
  rewrite Hl, Hpath. split; [exact Hrun|]. split; [exact Hp'|]. split.
  { rewrite get_property_own by done. by rewrite Hname'. }
  split; [exact Hpath'|].
  intros k Hk1 Hk2. rewrite !get_property_own by done.
  by rewrite Hother'.
Qed.

(** X18. Delivery of a message: on a table without a prototype, with the
    descriptors [l] (each with a hook) registered under the specifier's
    name and a non-empty file path other than that name, the handler
    returns, appends a copy of every descriptor of [l], in order, under
    the file path, with [moduleName] set to the path and [specifier] to the
    specifier; the descriptors under the specifier's name are overwritten
    in the same way, being the same objects; other names are untouched. *)
Theorem onmessage_files_under_path details reg l c s :
  let specifier := EsmLoader.d_specifier details in
  let name := getInstrumentationNameFromModuleName specifier in
  proto reg = NullPrototype ->
  get_property reg name = Array l ->
  Forall (fun d => truthy_hook (onRequire d) || truthy_hook (onResolved d) = true) l ->
  EsmLoader.d_filePath details = String c s ->
  name <> String c s ->
  exists reg',
    onmessage details reg = (Returned tt, reg') /\
    proto reg' = NullPrototype /\
    get_property reg' name = Array (map (retarget (String c s) specifier) l) /\
    descriptors (get_property reg' (String c s))
    = descriptors (get_property reg (String c s))
      ++ map (retarget (String c s) specifier) l /\
    (forall k, k <> name -> k <> String c s ->
       get_property reg' k = get_property reg k).
Proof.
  intros specifier name Hp Hl Hhooks Hpath Hne.
  assert (Hown : own reg !! name = Some l).
  { rewrite get_property_own in Hl by done.
    by destruct (own reg !! name) as [l0|]; [injection Hl as -> |]. }
  destruct (forEach_retargets name c s specifier l [] reg Hp Hne Hown Hhooks)
    as (reg' & Hrun & Hp' & Hname' & Hpath' & Hother').
  exists reg'. unfold MainThread.onmessage. fold specifier. fold name.
  rewrite Hl, Hpath. split; [exact Hrun|]. split; [exact Hp'|]. split.
  { rewrite get_property_own by done. by rewrite Hname'. }
  split; [exact Hpath'|].
  intros k Hk1 Hk2. rewrite !get_property_own by done.
  by rewrite Hother'.
Qed.

(** X19. Delivery is not idempotent: the same message handled a second
    time appends the copies under the file path once more, so every
    descriptor is filed there twice. *)
Theorem onmessage_twice_duplicates details reg l c s :
  let specifier := EsmLoader.d_specifier details in
  let name := getInstrumentationNameFromModuleName specifier in
  proto reg = NullPrototype ->
  get_property reg name = Array l ->
  Forall (fun d => truthy_hook (onRequire d) || truthy_hook (onResolved d) = true) l ->
  EsmLoader.d_filePath details = String c s ->
  name <> String c s ->
  exists reg1 reg2,
    onmessage details reg = (Returned tt, reg1) /\
    onmessage details reg1 = (Returned tt, reg2) /\
    descriptors (get_property reg2 (String c s))
    = descriptors (get_property reg (String c s))
      ++ map (retarget (String c s) specifier) l
      ++ map (retarget (String c s) specifier) l /\
    get_property reg2 name = Array (map (retarget (String c s) specifier) l).
Proof.
  intros specifier name Hp Hl Hhooks Hpath Hne.
  destruct (onmessage_effect details reg l c s Hp Hl Hhooks Hpath Hne)
    as (reg1 & Hrun1 & Hp1 & Hname1 & Hpath1 & _).
  destruct (onmessage_effect details reg1 _ c s Hp1 Hname1
              (retarget_keeps_hooks _ _ _ Hhooks) Hpath Hne)
    as (reg2 & Hrun2 & _ & Hname2 & Hpath2 & _).
  cbv zeta in *. subst specifier name.
  exists reg1, reg2. split; [exact Hrun1|]. split; [exact Hrun2|]. split.
  - rewrite Hpath2, Hpath1, <- app_assoc. do 2 f_equal.
    rewrite map_map. apply map_ext. intros d. apply retarget_idempotent.
  - rewrite Hname2. f_equal.
    rewrite map_map. apply map_ext. intros d. apply retarget_idempotent.
Qed.

End Handler.

End MainThreadFacts.

(** * From a resolved CommonJS module to its registration *)

Module Delivery.

Import Registry MainThread EsmLoader.

(** X20. Resolve, then deliver: for a CommonJS module without a record,
    the message [resolve] posts, once handled on the main thread, files
    the descriptors registered under the specifier's name under the
    module's file path, retargeted to that path and specifier. *)
Theorem resolve_then_onmessage
    proc getInstrumentationNameFromModuleName fileURLToPath
    specifier context nextResolve st rm c s pending reg l :
  agent proc = true -> isSupportedVersion proc = true ->
  isFromEsmLoader context = false ->
  nextResolve specifier context = Returned rm ->
  registeredSpecifiers st !! url rm = None ->
  format rm = Some "commonjs" ->
  fileURLToPath (url rm) = Returned (String c s) ->
  preloadPort st = Some pending ->
  proto reg = NullPrototype ->
  get_property reg (getInstrumentationNameFromModuleName specifier) = Array l ->
  Forall (fun d => truthy_hook (onRequire d) || truthy_hook (onResolved d) = true) l ->
  getInstrumentationNameFromModuleName specifier <> String c s ->
  exists st' message reg',
    resolve proc getInstrumentationNameFromModuleName fileURLToPath
      specifier context nextResolve st = (Returned rm, st') /\
    preloadPort st' = Some (pending ++ [message]) /\
    onmessage getInstrumentationNameFromModuleName message reg
    = (Returned tt, reg') /\
    descriptors (get_property reg' (String c s))
    = descriptors (get_property reg (String c s))
      ++ map (retarget (String c s) specifier) l.
Proof.
  intros Ha Hv Hl Hn Hnone Hf Hpath Hport Hp Hreg Hhooks Hne.
  set (message := {| d_specifier := specifier; d_resolvedModule := rm;
                     d_filePath := String c s |}).
  destruct (MainThreadFacts.onmessage_effect
              getInstrumentationNameFromModuleName message reg l c s
              Hp Hreg Hhooks eq_refl Hne)
    as (reg' & Hrun & _ & _ & Hfiled & _).
  eexists _, message, reg'. split.
  { rewrite (EsmLoaderFacts.resolve_active _ _ _ _ _ _ _ rm) by done.
    rewrite Hnone, Hf, Hpath, Hport. simpl. reflexivity. }
  by repeat split.
Qed.

End Delivery.

(** * The metrics recorded when the loader starts *)

Module StartupFacts.

Import EsmLoader Startup.

Lemma incrementCallCount_same name metrics :
  default 0 (getOrCreateMetric_incrementCallCount name metrics !! name)
  = S (default 0 (metrics !! name)).
Proof.
  unfold getOrCreateMetric_incrementCallCount. by rewrite lookup_insert_eq.
Qed.

Lemma incrementCallCount_other name k metrics :
  name <> k ->
  getOrCreateMetric_incrementCallCount name metrics !! k = metrics !! k.
Proof.
  intros H. unfold getOrCreateMetric_incrementCallCount.
  by rewrite lookup_insert_ne.
Qed.

(** X21. At start-up, with an agent, exactly one of the loader and the
    unsupported-loader counters goes up by one, the first on a supported
    runtime and the second, together with one warning, on an unsupported
    one; the custom-instrumentation counter goes up by one exactly when an
    entry point is configured; no other metric changes. Without an agent
    nothing is counted or logged. *)
Theorem addESMSupportabilityMetrics_counts
    NAMES proc customEntryPoint metrics warnings :
  LOADER NAMES <> UNSUPPORTED_LOADER NAMES ->
  LOADER NAMES <> CUSTOM_INSTRUMENTATION NAMES ->
  UNSUPPORTED_LOADER NAMES <> CUSTOM_INSTRUMENTATION NAMES ->
  addESMSupportabilityMetrics NAMES proc customEntryPoint None warnings
  = (None, warnings) /\
  exists metrics',
    addESMSupportabilityMetrics NAMES proc customEntryPoint (Some metrics) warnings
    = (Some metrics',
       warnings ++
       (if isSupportedVersion proc then []
        else [{| w_format := unsupported_warning;
                 w_version := process_version proc |}])) /\
    default 0 (metrics' !! LOADER NAMES)
    = default 0 (metrics !! LOADER NAMES)
      + (if isSupportedVersion proc then 1 else 0) /\
    default 0 (metrics' !! UNSUPPORTED_LOADER NAMES)
    = default 0 (metrics !! UNSUPPORTED_LOADER NAMES)
      + (if isSupportedVersion proc then 0 else 1) /\
    default 0 (metrics' !! CUSTOM_INSTRUMENTATION NAMES)
    = default 0 (metrics !! CUSTOM_INSTRUMENTATION NAMES)
      + (if Registry.truthy_string customEntryPoint then 1 else 0) /\
    (forall k, k <> LOADER NAMES -> k <> UNSUPPORTED_LOADER NAMES ->
               k <> CUSTOM_INSTRUMENTATION NAMES ->
               metrics' !! k = metrics !! k).
Proof.
  intros H1 H2 H3. split; [done|].
  unfold addESMSupportabilityMetrics.
  destruct (isSupportedVersion proc), (Registry.truthy_string customEntryPoint);
    eexists; (split; [by rewrite ?app_nil_r|]);
    repeat split;
    rewrite ?incrementCallCount_same;
    rewrite ?incrementCallCount_other by done;
    rewrite ?incrementCallCount_same;
    rewrite ?incrementCallCount_other by done;
    try lia;
    intros; rewrite ?incrementCallCount_other by done; done.
Qed.

(** X22. The unsupported-loader counter and the hooks agree: when the call
    at start-up moved that counter, [resolve] and [load] of the same
    process pass every request on to the next hook and leave the state
    alone. *)
Theorem unsupported_counter_means_pass_through
    NAMES proc customEntryPoint metrics warnings metrics' warnings'
    getInstrumentationNameFromModuleName fileURLToPath esmShimPath_href import_keys :
  LOADER NAMES <> UNSUPPORTED_LOADER NAMES ->
  UNSUPPORTED_LOADER NAMES <> CUSTOM_INSTRUMENTATION NAMES ->
  addESMSupportabilityMetrics NAMES proc customEntryPoint (Some metrics) warnings
  = (Some metrics', warnings') ->
  default 0 (metrics' !! UNSUPPORTED_LOADER NAMES)
  <> default 0 (metrics !! UNSUPPORTED_LOADER NAMES) ->
  forall specifier context nextResolve u lcontext nextLoad st,
    resolve proc getInstrumentationNameFromModuleName fileURLToPath
      specifier context nextResolve st
    = (nextResolve specifier context, st) /\
    load proc fileURLToPath esmShimPath_href import_keys u lcontext nextLoad st
    = (nextLoad u lcontext, st).
Proof.
  intros H1 H3 Hrun Hmoved.
  assert (Hv : isSupportedVersion proc = false).
  { destruct (isSupportedVersion proc) eqn:Hv; [|done]. exfalso. apply Hmoved.
    unfold addESMSupportabilityMetrics in Hrun. rewrite Hv in Hrun.
    destruct (Registry.truthy_string customEntryPoint);
      injection Hrun as <- _;
      by rewrite ?incrementCallCount_other by done. }
  intros. split.
  - apply EsmLoaderFacts.resolve_guarded. auto.
  - apply EsmLoaderFacts.load_guarded. auto.
Qed.

End StartupFacts.

(** * The further properties on the sample loader *)

Module Examples.

Import Registry MainThread EsmLoader Startup Samples Scenarios.

Local Abbreviation sample_resolve :=
  (resolve node18 instrumentation_name file_url_to_path).
Local Abbreviation sample_load :=
  (load node18 file_url_to_path shim_href import_export_names).

Lemma resolve_from_loader_passes_through_witness :
  sample_resolve "db-client" (Some loader_parent) next_resolve started
  = (next_resolve "db-client" (Some loader_parent), started).
Proof.
  apply (EsmLoaderMore.resolve_from_loader_passes_through node18
           instrumentation_name file_url_to_path "db-client" loader_parent
           "file:///app/node_modules/" EmptyString).
  reflexivity.
Defined.

Lemma resolve_observes_only_witness :
  sample_resolve "fs" app_context next_resolve_builtin started
  = (Returned fs_module, started).
Proof.
  apply EsmLoaderMore.resolve_observes_only;
    [reflexivity | reflexivity | discriminate | discriminate].
Defined.

Lemma resolve_keeps_records_marked_witness :
  map_Forall (fun _ seen => hasNrInstrumentation seen = true)
    (registeredSpecifiers db_client_resolved) /\
  (forall u, has_instrumentation db_client_resolved u = true <->
             is_Some (registeredSpecifiers db_client_resolved !! u)).
Proof.
  apply (EsmLoaderMore.resolve_keeps_records_marked node18 instrumentation_name
           file_url_to_path "db-client" app_context next_resolve started).
  apply map_Forall_empty.
Defined.

Lemma load_delegates_uninstrumented_witness :
  sample_load legacy_db_url module_load_context next_load started
  = (next_load legacy_db_url module_load_context, started).
Proof.
  apply EsmLoaderMore.load_delegates_uninstrumented. reflexivity.
Defined.

Lemma load_instrumented_errors_witness :
  load node18 file_url_to_path shim_href import_fails
    db_client_url module_load_context next_load db_client_resolved
  = (Threw (ChainError "ERR_MODULE_NOT_FOUND"), db_client_resolved).
Proof.
  apply (EsmLoaderMore.load_instrumented_errors node18 file_url_to_path
           shim_href import_fails db_client_url module_load_context next_load
           db_client_resolved eq_refl eq_refl eq_refl).
  reflexivity.
Defined.

Lemma resolve_needs_port_witness :
  sample_resolve "legacy-db" app_context next_resolve loaded
  = (Threw (TypeError
       "Cannot read properties of undefined (reading 'postMessage')"), loaded).
Proof.
  apply (EsmLoaderMore.resolve_needs_port node18 instrumentation_name
           file_url_to_path "legacy-db" app_context next_resolve loaded
           legacy_db_module "/app/node_modules/legacy-db/index.js"
           eq_refl eq_refl eq_refl eq_refl eq_refl eq_refl eq_refl).
  reflexivity.
Defined.

Lemma resolve_path_error_witness :
  sample_resolve "legacy-db" app_context next_resolve_remote started
  = (Threw (TypeError "ERR_INVALID_URL_SCHEME"), started).
Proof.
  apply (EsmLoaderMore.resolve_path_error node18 instrumentation_name
           file_url_to_path "legacy-db" app_context next_resolve_remote started
           remote_module);
    [reflexivity .. | right; reflexivity].
Defined.

Lemma resolve_then_load_delegates_witness :
  let st' := snd (sample_resolve "legacy-db" app_context next_resolve started) in
  sample_load legacy_db_url module_load_context next_load st'
  = (next_load legacy_db_url module_load_context, st').
Proof.
  apply (EsmLoaderMore.resolve_then_load_delegates node18 instrumentation_name
           file_url_to_path shim_href import_export_names
           "legacy-db" app_context next_resolve module_load_context next_load
           started legacy_db_module);
    [reflexivity | reflexivity | discriminate].
Defined.

Lemma resolve_keeps_load_result_witness :
  fst (sample_load db_client_url module_load_context next_load
         (snd (sample_resolve "./db.mjs" app_context next_resolve
                 db_client_resolved)))
  = fst (sample_load db_client_url module_load_context next_load
           db_client_resolved).
Proof.
  apply EsmLoaderMore.resolve_keeps_load_result.
  by vm_compute; eexists.
Defined.

Lemma onmessage_files_under_path_witness :
  exists reg',
    onmessage instrumentation_name legacy_db_details sample_registry
    = (Returned tt, reg') /\
    descriptors (get_property reg' "/app/node_modules/legacy-db/index.js")
    = [retarget "/app/node_modules/legacy-db/index.js" "legacy-db" legacy_db] /\
    get_property reg' "legacy-db"
    = Array [retarget "/app/node_modules/legacy-db/index.js" "legacy-db" legacy_db] /\
    get_property reg' "db-client" = Array [db_client].
Proof.
  destruct (MainThreadFacts.onmessage_files_under_path instrumentation_name
              legacy_db_details sample_registry [legacy_db]
              slash "app/node_modules/legacy-db/index.js"
              eq_refl eq_refl)
    as (reg' & Hrun & _ & Hname & Hfiled & Hother).
  - repeat constructor.
  - reflexivity.
  - discriminate.
  - exists reg'. split; [exact Hrun|]. split; [|split].
    + exact Hfiled.
    + exact Hname.
    + rewrite (Hother "db-client"); [reflexivity | discriminate | discriminate].
Defined.

Lemma onmessage_twice_duplicates_witness :
  exists reg1 reg2,
    onmessage instrumentation_name legacy_db_details sample_registry
    = (Returned tt, reg1) /\
    onmessage instrumentation_name legacy_db_details reg1 = (Returned tt, reg2) /\
    descriptors (get_property reg2 "/app/node_modules/legacy-db/index.js")
    = [retarget "/app/node_modules/legacy-db/index.js" "legacy-db" legacy_db;
       retarget "/app/node_modules/legacy-db/index.js" "legacy-db" legacy_db].
Proof.
  destruct (MainThreadFacts.onmessage_twice_duplicates instrumentation_name
              legacy_db_details sample_registry [legacy_db]
              slash "app/node_modules/legacy-db/index.js"
              eq_refl eq_refl)
    as (reg1 & reg2 & Hrun1 & Hrun2 & Hfiled & _).
  - repeat constructor.
  - reflexivity.
  - discriminate.
  - exists reg1, reg2. split; [exact Hrun1|]. split; [exact Hrun2|].
    exact Hfiled.
Defined.

Lemma resolve_then_onmessage_witness :
  exists st' message reg',
    sample_resolve "legacy-db" app_context next_resolve started
    = (Returned legacy_db_module, st') /\
    preloadPort st' = Some ([] ++ [message]) /\
    onmessage instrumentation_name message sample_registry = (Returned tt, reg') /\
    descriptors (get_property reg' "/app/node_modules/legacy-db/index.js")
    = [retarget "/app/node_modules/legacy-db/index.js" "legacy-db" legacy_db].
Proof.
  destruct (Delivery.resolve_then_onmessage node18 instrumentation_name
              file_url_to_path "legacy-db" app_context next_resolve started
              legacy_db_module slash "app/node_modules/legacy-db/index.js"
              [] sample_registry [legacy_db]
              eq_refl eq_refl eq_refl eq_refl eq_refl eq_refl eq_refl eq_refl
              eq_refl eq_refl)
    as (st' & message & reg' & Hres & Hport & Hrun & Hfiled).
  - repeat constructor.
  - discriminate.
  - exists st', message, reg'. split; [exact Hres|]. split; [exact Hport|].
    split; [exact Hrun | exact Hfiled].
Defined.

Lemma addESMSupportabilityMetrics_counts_witness :
  exists metrics',
    addESMSupportabilityMetrics names node14 (Some "./instrumentation.mjs")
      (Some ∅) []
    = (Some metrics',
       [{| w_format := unsupported_warning; w_version := Version 14 21 3 [] |}]) /\
    default 0 (metrics' !! LOADER names) = 0 /\
    default 0 (metrics' !! UNSUPPORTED_LOADER names) = 1 /\
    default 0 (metrics' !! CUSTOM_INSTRUMENTATION names) = 1.
Proof.
  destruct (StartupFacts.addESMSupportabilityMetrics_counts names node14
              (Some "./instrumentation.mjs") ∅ [])
    as (_ & metrics' & Hrun & Hloader & Hunsupported & Hcustom & _);
    [discriminate .. |].
  exists metrics'. split; [exact Hrun|]. split; [exact Hloader|].
  split; [exact Hunsupported | exact Hcustom].
Defined.

Lemma unsupported_counter_means_pass_through_witness :
  resolve node14 instrumentation_name file_url_to_path
    "db-client" app_context next_resolve started
  = (next_resolve "db-client" app_context, started) /\
  load node14 file_url_to_path shim_href import_export_names
    db_client_url module_load_context next_load started
  = (next_load db_client_url module_load_context, started).
Proof.
  apply (StartupFacts.unsupported_counter_means_pass_through names node14 None
           ∅ []
           (getOrCreateMetric_incrementCallCount (UNSUPPORTED_LOADER names) ∅)
           [{| w_format := unsupported_warning; w_version := Version 14 21 3 [] |}]);
    [discriminate | discriminate | reflexivity | by vm_compute].
Defined.

End Examples.
